(** * UVM toolchain (dz4.py): assembler and interpreter

    A shallow embedding of [assemble] and [interpret] from [src/dz4/dz4.py]
    together with the properties of the instruction encoding and of the
    execution semantics.

    Python integers are unbounded, so instruction words and arguments are
    [Z]; the bit operators [&], [|], [<<], [>>] are [Z.land], [Z.lor],
    [Z.shiftl], [Z.shiftr], which agree with Python on negative numbers
    (infinite two's complement).  Exceptions are an explicit error result. *)

From Stdlib Require Import ZArith List Lia Bool Ascii String.
From stdpp Require Import base list strings gmap.

Local Open Scope Z_scope.

(** ** Exceptions and the error monad *)

Inductive exn : Type :=
| ValueError
| IndexError
| OverflowError
| FileNotFoundError
| UnicodeDecodeError.

Inductive result (A : Type) : Type :=
| Ret (a : A)
| Raise (e : exn).
Arguments Ret {A} a.
Arguments Raise {A} e.

Definition bind {A B : Type} (r : result A) (k : A -> result B) : result B :=
  match r with
  | Ret a => k a
  | Raise e => Raise e
  end.

Notation "'let*' x ':=' r 'in' k" := (bind r (fun x => k))
  (at level 10, x pattern, r at level 100, k at level 200).

(** ** Instruction encoding (the body of the loop of [assemble]) *)

Module Encoder.

(** Lines 21-42: dispatch on the command token and pack the fields.  The
    tuple unpacking [B, C = args] raises [ValueError] when the number of
    arguments is not the expected one. *)
Definition encode (command : string) (args : list Z) : result Z :=
  if String.eqb command "LOAD_CONST" then
    let A := 5 in
    match args with
    | [B; C] =>
        Ret (Z.lor (Z.lor (Z.shiftl (Z.land A 0x7) 61)
                          (Z.shiftl (Z.land B 0xFFFFF) 41))
                   (Z.land C 0x7FFFFFFFFFF))
    | _ => Raise ValueError
    end
  else if String.eqb command "READ_MEM" then
    let A := 6 in
    match args with
    | [B; C; D] =>
        Ret (Z.lor (Z.lor (Z.lor (Z.shiftl (Z.land A 0x7) 61)
                                 (Z.shiftl (Z.land B 0xFFFFF) 41))
                          (Z.shiftl (Z.land C 0xFFFFF) 21))
                   (Z.land D 0x7FFF))
    | _ => Raise ValueError
    end
  else if String.eqb command "WRITE_MEM" then
    let A := 1 in
    match args with
    | [B; C] =>
        Ret (Z.lor (Z.lor (Z.shiftl (Z.land A 0x7) 61)
                          (Z.shiftl (Z.land B 0xFFFFF) 41))
                   (Z.land C 0xFFFFF))
    | _ => Raise ValueError
    end
  else if String.eqb command "ABS" then
    let A := 0 in
    match args with
    | [B; C] =>
        Ret (Z.lor (Z.lor (Z.shiftl (Z.land A 0x7) 61)
                          (Z.shiftl (Z.land B 0xFFFFF) 41))
                   (Z.land C 0xFFFFF))
    | _ => Raise ValueError
    end
  else Raise ValueError.

End Encoder.

(** ** Instruction decoding (lines 67-70 of [interpret]) *)

Module Decoder.

Definition field_A (instruction : Z) : Z := Z.land (Z.shiftr instruction 61) 0x7.
Definition field_B (instruction : Z) : Z := Z.land (Z.shiftr instruction 41) 0xFFFFF.
Definition field_C (instruction : Z) : Z := Z.land (Z.shiftr instruction 21) 0xFFFFF.
Definition field_D (instruction : Z) : Z := Z.land instruction 0x7FFF.

End Decoder.

(** ** Python built-ins used by the program *)

Module Py.

(** [str.isspace] on code points below 256 (the characters a [string] of
    this development can hold). *)
Definition isspace (c : ascii) : bool :=
  let n := Z.of_N (N_of_ascii c) in
  ((9 <=? n) && (n <=? 13)) || ((28 <=? n) && (n <=? 32))
  || (n =? 133) || (n =? 160).

Definition is_empty (s : string) : bool :=
  match s with
  | EmptyString => true
  | String _ _ => false
  end.

(** [s.split()] : the maximal runs of non-space characters, in order.
    [tok] is the run being read.  ([strip] before [split] changes
    nothing.) *)
Fixpoint split_from (tok : string) (s : string) : list string :=
  match s with
  | EmptyString => if is_empty tok then [] else [tok]
  | String c s' =>
      if isspace c
      then (if is_empty tok then split_from EmptyString s'
            else tok :: split_from EmptyString s')
      else split_from (tok ++ String c EmptyString)%string s'
  end.

Definition split (s : string) : list string := split_from EmptyString s.

Definition digit_value (c : ascii) : option Z :=
  let n := Z.of_N (N_of_ascii c) in
  if (48 <=? n) && (n <=? 57) then Some (n - 48) else None.

(** Decimal digits with single underscores between digits. *)
Fixpoint digits_from (acc : Z) (after_digit : bool) (s : string) : option Z :=
  match s with
  | EmptyString => if after_digit then Some acc else None
  | String c s' =>
      match digit_value c with
      | Some d => digits_from (10 * acc + d) true s'
      | None =>
          if Ascii.eqb c "_" && after_digit then digits_from acc false s'
          else None
      end
  end.

(** [int(tok)] for a token without white space: an optional sign and a
    decimal literal; anything else raises [ValueError].  (The limit on the
    number of digits of recent interpreters is not modelled.) *)
Definition int (tok : string) : result Z :=
  let parsed :=
    match tok with
    | String "+" s => digits_from 0 false s
    | String "-" s => option_map Z.opp (digits_from 0 false s)
    | _ => digits_from 0 false tok
    end in
  match parsed with
  | Some z => Ret z
  | None => Raise ValueError
  end.

(** [list(map(int, toks))] *)
Fixpoint map_int (toks : list string) : result (list Z) :=
  match toks with
  | [] => Ret []
  | tok :: toks' =>
      let* z := int tok in
      let* zs := map_int toks' in
      Ret (z :: zs)
  end.

(** [f.readlines()] on the decoded text, with universal newlines. *)
Fixpoint readlines_from (cur : string) (s : string) : list string :=
  let nl := String "010" EmptyString in
  match s with
  | EmptyString => if is_empty cur then [] else [cur]
  | String c s' =>
      if Ascii.eqb c "010" then (cur ++ nl)%string :: readlines_from EmptyString s'
      else if Ascii.eqb c "013" then
        match s' with
        | String "010" s'' => (cur ++ nl)%string :: readlines_from EmptyString s''
        | _ => (cur ++ nl)%string :: readlines_from EmptyString s'
        end
      else readlines_from (cur ++ String c EmptyString)%string s'
  end.

Definition readlines (s : string) : list string := readlines_from EmptyString s.

Definition byte_of_Z (z : Z) : Byte.byte :=
  match Byte.of_N (Z.to_N z) with
  | Some b => b
  | None => Byte.x00
  end.

Definition Z_of_byte (b : Byte.byte) : Z := Z.of_N (Byte.to_N b).

(** [n.to_bytes(8, byteorder='big')] *)
Definition to_bytes8 (n : Z) : result (list Byte.byte) :=
  if (0 <=? n) && (n <? 2 ^ 64)
  then Ret (map (fun k => byte_of_Z (Z.land (Z.shiftr n (8 * Z.of_nat k)) 0xFF))
                [7; 6; 5; 4; 3; 2; 1; 0]%nat)
  else Raise OverflowError.

(** [int.from_bytes(bs, byteorder='big')] *)
Definition from_bytes (bs : list Byte.byte) : Z :=
  fold_left (fun acc b => 256 * acc + Z_of_byte b) bs 0.

(** [l[i]]: negative subscripts count from the end. *)
Definition getitem {A : Type} (l : list A) (i : Z) : result A :=
  let n := Z.of_nat (length l) in
  let j := if i <? 0 then i + n else i in
  if (0 <=? j) && (j <? n) then
    match l !! Z.to_nat j with
    | Some v => Ret v
    | None => Raise IndexError
    end
  else Raise IndexError.

(** [l[i] = v] *)
Definition setitem {A : Type} (l : list A) (i : Z) (v : A) : result (list A) :=
  let n := Z.of_nat (length l) in
  let j := if i <? 0 then i + n else i in
  if (0 <=? j) && (j <? n) then Ret (<[Z.to_nat j := v]> l)
  else Raise IndexError.

(** [l[lo:hi]] *)
Definition slice {A : Type} (l : list A) (lo hi : Z) : list A :=
  let n := Z.of_nat (length l) in
  let clamp x := if x <? 0 then Z.max (x + n) 0 else Z.min x n in
  let lo' := clamp lo in
  let hi' := clamp hi in
  take (Z.to_nat (hi' - lo')) (drop (Z.to_nat lo') l).

(** [enumerate(l, start)] *)
Fixpoint enumerate {A : Type} (l : list A) (start : Z) : list (Z * A) :=
  match l with
  | [] => []
  | x :: l' => (start, x) :: enumerate l' (start + 1)
  end.

Definition hex_digit (n : Z) : ascii :=
  ascii_of_N (Z.to_N (if n <? 10 then 48 + n else 55 + n)).

(** [f"{n:016X}"] for [0 <= n < 2^64] (every encoded word is). *)
Definition hex16 (n : Z) : string :=
  fold_right (fun k s => String (hex_digit (Z.land (Z.shiftr n (4 * Z.of_nat k)) 0xF)) s)
             EmptyString
             [15; 14; 13; 12; 11; 10; 9; 8; 7; 6; 5; 4; 3; 2; 1; 0]%nat.

End Py.

(** ** Files

    The file system is a finite map from paths to the bytes of each file.
    Decoding the bytes of a text file and rendering a table of cells as
    CSV text belong to Python's [open] and [csv] and are parameters of the
    two entry points. *)

Inductive cell : Type :=
| CStr (s : string)
| CInt (z : Z)
| CList (zs : list Z).

(** One entry of [log_data] (the dictionary built on line 45). *)
Record log_row : Type := LogRow {
  command : string;
  args : list Z;
  instruction : string
}.

(** ** The assembler *)

Module Assembler.

(** Lines 16-45: the loop over the source lines with its two accumulators. *)
Fixpoint assemble_loop (lines : list string)
    (binary_instructions : list Z) (log_data : list log_row)
    : result (list Z * list log_row) :=
  match lines with
  | [] => Ret (binary_instructions, log_data)
  | line :: lines' =>
      let parts := Py.split line in
      let* command := Py.getitem parts 0 in
      let* args := Py.map_int (tail parts) in
      let* instruction := Encoder.encode command args in
      assemble_loop lines'
        (binary_instructions ++ [instruction])
        (log_data ++ [LogRow command args (Py.hex16 instruction)])
  end.

Definition assemble_lines (lines : list string) : result (list Z * list log_row) :=
  assemble_loop lines [] [].

(** Lines 48-49: the bytes written so far, and the exception that stopped
    the loop if one did. *)
Fixpoint write_words (insts : list Z) (written : list Byte.byte)
    : list Byte.byte * result unit :=
  match insts with
  | [] => (written, Ret tt)
  | inst :: insts' =>
      match Py.to_bytes8 inst with
      | Ret bs => write_words insts' (written ++ bs)
      | Raise e => (written, Raise e)
      end
  end.

Definition log_table (log_data : list log_row) : list (list cell) :=
  [CStr "command"; CStr "args"; CStr "instruction"]
  :: map (fun r => [CStr (command r); CList (args r); CStr (instruction r)]) log_data.

Section Files.

Variable decode_text : list Byte.byte -> result string.
Variable csv_bytes : list (list cell) -> list Byte.byte.

(** [assemble(input_path, output_path, log_path)]: the file system after
    the call and whether the call returned or raised. *)
Definition assemble (fs : gmap string (list Byte.byte))
    (input_path output_path log_path : string)
    : gmap string (list Byte.byte) * result unit :=
  match fs !! input_path with
  | None => (fs, Raise FileNotFoundError)
  | Some raw =>
      match decode_text raw with
      | Raise e => (fs, Raise e)
      | Ret text =>
          match assemble_lines (Py.readlines text) with
          | Raise e => (fs, Raise e)
          | Ret (binary_instructions, log_data) =>
              match write_words binary_instructions [] with
              | (written, Raise e) => (<[output_path := written]> fs, Raise e)
              | (written, Ret _) =>
                  let fs1 := <[output_path := written]> fs in
                  (<[log_path := csv_bytes (log_table log_data)]> fs1, Ret tt)
              end
          end
      end
  end.

End Files.

End Assembler.

(** ** The interpreter *)

Module Interpreter.

Import Decoder.

(** Line 64 *)
Definition fresh_memory : list Z := replicate 1024%nat 0.

(** Lines 66-79: decode one word and execute it.  In an assignment Python
    evaluates the right-hand side first, then the subscript of the target,
    then stores. *)
Definition execute (memory : list Z) (instruction : Z) : result (list Z) :=
  let A := field_A instruction in
  let B := field_B instruction in
  let C := field_C instruction in
  let D := field_D instruction in
  if A =? 5 then
    Py.setitem memory B C
  else if A =? 6 then
    let* base := Py.getitem memory C in
    let* v := Py.getitem memory (base + D) in
    Py.setitem memory B v
  else if A =? 1 then
    let* src := Py.getitem memory C in
    let* v := Py.getitem memory src in
    let* dst := Py.getitem memory B in
    Py.setitem memory dst v
  else if A =? 0 then
    let* src := Py.getitem memory C in
    let* v := Py.getitem memory src in
    let* dst := Py.getitem memory B in
    Py.setitem memory dst (Z.abs v)
  else Ret memory.

(** The loop of line 65 over the decoded words. *)
Fixpoint run (memory : list Z) (words : list Z) : result (list Z) :=
  match words with
  | [] => Ret memory
  | w :: words' =>
      let* memory' := execute memory w in
      run memory' words'
  end.

(** Lines 65-66: [instructions[i:i + 8]] for [i] in
    [range(0, len(instructions), 8)]; the last chunk may be short. *)
Definition words_of (instructions : list Byte.byte) : list Z :=
  map (fun k => Py.from_bytes (take 8 (drop (8 * k) instructions)))
      (seq 0 ((length instructions + 7) / 8)).

(** Lines 64-81 and 85: the rows of the dump.  [memory_range] is the pair
    of the two integers of the command line. *)
Definition interpret_words (words : list Z) (memory_range : Z * Z)
    : result (list (Z * Z)) :=
  let* memory := run fresh_memory words in
  let memory_dump := Py.slice memory (fst memory_range) (snd memory_range) in
  Ret (Py.enumerate memory_dump (fst memory_range)).


Section Files.

Variable csv_bytes : list (list cell) -> list Byte.byte.


End Files.

End Interpreter.

Import Encoder Decoder Assembler Interpreter.

(** ** Vocabulary of the properties *)

(** A [k]-bit value placed at bit [s], and the [k]-bit field read at bit [s]. *)
Definition place (v k s : Z) : Z := Z.shiftl (Z.land v (Z.ones k)) s.
Definition extract (w s k : Z) : Z := Z.land (Z.shiftr w s) (Z.ones k).

(** Number of arguments each mnemonic unpacks. *)
Definition arity (command : string) : option nat :=
  if String.eqb command "LOAD_CONST" then Some 2%nat
  else if String.eqb command "READ_MEM" then Some 3%nat
  else if String.eqb command "WRITE_MEM" then Some 2%nat
  else if String.eqb command "ABS" then Some 2%nat
  else None.

(** The arguments reduced modulo the width of the field each one goes to. *)
Definition reduce_args (command : string) (args : list Z) : list Z :=
  match args with
  | [B; C] =>
      if String.eqb command "LOAD_CONST" then [B mod 2 ^ 20; C mod 2 ^ 43]
      else [B mod 2 ^ 20; C mod 2 ^ 20]
  | [B; C; D] => [B mod 2 ^ 20; C mod 2 ^ 20; D mod 2 ^ 15]
  | _ => args
  end.

Definition raises {A : Type} (r : result A) : bool :=
  match r with
  | Ret _ => false
  | Raise _ => true
  end.

(** A source line with an unknown mnemonic, a wrong number of arguments or
    an argument that [int] rejects. *)
Definition malformed (line : string) : bool :=
  match Py.split line with
  | [] => false
  | cmd :: toks =>
      match arity cmd with
      | None => true
      | Some n =>
          negb (Nat.eqb (length toks) n)
          || existsb (fun tok => raises (Py.int tok)) toks
      end
  end.

(** The memory subscripts an instruction refers to on [memory]: the decoded
    fields it indexes with, and the indices derived from the cells they
    name whenever that cell can be read. *)
Definition derived (memory : list Z) (i : Z) (f : Z -> Z) : list Z :=
  match Py.getitem memory i with
  | Ret v => [f v]
  | Raise _ => []
  end.

Definition subscripts (memory : list Z) (instruction : Z) : list Z :=
  let A := field_A instruction in
  let B := field_B instruction in
  let C := field_C instruction in
  let D := field_D instruction in
  if A =? 5 then [B]
  else if A =? 6 then C :: B :: derived memory C (fun base => base + D)
  else if (A =? 1) || (A =? 0) then
    C :: B :: derived memory C (fun v => v) ++ derived memory B (fun v => v)
  else [].

(** Memory states the interpreter can be in: 1024 cells, none negative. *)
Definition well_formed (memory : list Z) : Prop :=
  length memory = 1024%nat /\ Forall (fun v => 0 <= v) memory.

(** The source text of the end-to-end scenario: three lines separated by
    line feeds. *)
Definition scenario : string :=
  ("LOAD_CONST 0 42" ++ String "010" "LOAD_CONST 1 0"
   ++ String "010" "WRITE_MEM 1 0")%string.

(** * Properties *)

(** ** Bit fields *)

Section Bits.

Lemma testbit_extract (w s k i : Z) :
  0 <= i -> 0 <= k ->
  Z.testbit (extract w s k) i = Z.testbit w (i + s) && (i <? k).
Proof.
  intros Hi Hk. unfold extract.
  rewrite Z.land_spec, Z.shiftr_spec by assumption.
  rewrite Z.testbit_ones_nonneg by assumption.
  reflexivity.
Qed.

Lemma testbit_place (v k s i : Z) :
  0 <= i -> 0 <= k ->
  Z.testbit (place v k s) i = Z.testbit v (i - s) && (0 <=? i - s) && (i - s <? k).
Proof.
  intros Hi Hk. unfold place.
  rewrite Z.shiftl_spec by assumption.
  destruct (Z.leb_spec 0 (i - s)) as [Hge | Hlt].
  - rewrite Z.land_spec, Z.testbit_ones_nonneg by assumption.
    rewrite andb_true_r. reflexivity.
  - rewrite Z.testbit_neg_r by assumption.
    rewrite andb_false_r. reflexivity.
Qed.

Lemma extract_lor (a b s k : Z) :
  extract (Z.lor a b) s k = Z.lor (extract a s k) (extract b s k).
Proof.
  unfold extract. rewrite Z.shiftr_lor. apply Z.land_lor_distr_l.
Qed.

Lemma extract_range (w s k : Z) : 0 <= k -> 0 <= extract w s k < 2 ^ k.
Proof.
  intros Hk. unfold extract. rewrite Z.land_ones by assumption.
  apply Z.mod_pos_bound. apply Z.pow_pos_nonneg; lia.
Qed.

Lemma extract_div_mod (w s k : Z) :
  0 <= s -> 0 <= k -> extract w s k = (w / 2 ^ s) mod 2 ^ k.
Proof.
  intros Hs Hk. unfold extract.
  rewrite Z.land_ones, Z.shiftr_div_pow2 by assumption. reflexivity.
Qed.

(** Reading back the field a value was placed in. *)
Lemma extract_place_same (v k s : Z) :
  0 <= s -> 0 <= k -> extract (place v k s) s k = Z.land v (Z.ones k).
Proof.
  intros Hs Hk. apply Z.bits_inj'. intros i Hi.
  rewrite testbit_extract, testbit_place by lia.
  rewrite Z.land_spec, Z.testbit_ones_nonneg by lia.
  replace (i + s - s) with i by lia.
  destruct (Z.ltb_spec i k), (Z.leb_spec 0 i); try lia;
    rewrite ?andb_true_r, ?andb_false_r; reflexivity.
Qed.

(** Reading a field that does not meet the one a value was placed in. *)
Lemma extract_place_apart (v k' s' s k : Z) :
  0 <= k' -> 0 <= k -> s' + k' <= s \/ s + k <= s' ->
  extract (place v k' s') s k = 0.
Proof.
  intros Hk' Hk Hapart. apply Z.bits_inj'. intros i Hi.
  rewrite testbit_extract by lia.
  rewrite Z.bits_0.
  destruct (Z.ltb_spec i k) as [Hik | Hik]; [ | apply andb_false_r ].
  rewrite andb_true_r.
  destruct (Z.leb_spec 0 (i + s)) as [Hnn | Hneg];
    [ | apply Z.testbit_neg_r; assumption ].
  rewrite testbit_place by lia.
  destruct (Z.leb_spec 0 (i + s - s')), (Z.ltb_spec (i + s - s') k'); try lia;
    rewrite ?andb_false_r; reflexivity.
Qed.

(** A sub-field of a value placed at bit 0. *)
Lemma extract_place_low (v k' s k : Z) :
  0 <= s -> 0 <= k -> s + k <= k' ->
  extract (place v k' 0) s k = extract v s k.
Proof.
  intros Hs Hk Hin. apply Z.bits_inj'. intros i Hi.
  rewrite !testbit_extract by lia.
  destruct (Z.ltb_spec i k) as [Hik | Hik];
    [ rewrite !andb_true_r | rewrite !andb_false_r; reflexivity ].
  rewrite testbit_place by lia.
  replace (i + s - 0) with (i + s) by lia.
  destruct (Z.leb_spec 0 (i + s)), (Z.ltb_spec (i + s) k'); try lia.
  rewrite !andb_true_r. reflexivity.
Qed.

(** The top of a value placed at bit 0, read by a wider field. *)
Lemma extract_place_top (v k' s k : Z) :
  0 <= s -> s <= k' -> k' <= s + k ->
  extract (place v k' 0) s k = extract v s (k' - s).
Proof.
  intros Hs Hsk Hk. apply Z.bits_inj'. intros i Hi.
  rewrite !testbit_extract by lia.
  rewrite testbit_place by lia.
  replace (i + s - 0) with (i + s) by lia.
  destruct (Z.ltb_spec i k), (Z.ltb_spec i (k' - s)),
    (Z.leb_spec 0 (i + s)), (Z.ltb_spec (i + s) k'); try lia;
    rewrite ?andb_true_r, ?andb_false_r; reflexivity.
Qed.

End Bits.

(** ** The words the encoder builds and the fields the decoder reads *)

Section Encoding.

Lemma encode_LOAD_CONST (B C : Z) :
  encode "LOAD_CONST" [B; C]
  = Ret (Z.lor (Z.lor (place 5 3 61) (place B 20 41)) (place C 43 0)).
Proof. reflexivity. Qed.

Lemma encode_READ_MEM (B C D : Z) :
  encode "READ_MEM" [B; C; D]
  = Ret (Z.lor (Z.lor (Z.lor (place 6 3 61) (place B 20 41)) (place C 20 21))
               (place D 15 0)).
Proof. reflexivity. Qed.

Lemma encode_WRITE_MEM (B C : Z) :
  encode "WRITE_MEM" [B; C]
  = Ret (Z.lor (Z.lor (place 1 3 61) (place B 20 41)) (place C 20 0)).
Proof. reflexivity. Qed.

Lemma encode_ABS (B C : Z) :
  encode "ABS" [B; C]
  = Ret (Z.lor (Z.lor (place 0 3 61) (place B 20 41)) (place C 20 0)).
Proof. reflexivity. Qed.

Lemma field_A_extract (w : Z) : field_A w = extract w 61 3.
Proof. reflexivity. Qed.

Lemma field_B_extract (w : Z) : field_B w = extract w 41 20.
Proof. reflexivity. Qed.

Lemma field_C_extract (w : Z) : field_C w = extract w 21 20.
Proof. reflexivity. Qed.

Lemma field_D_extract (w : Z) : field_D w = extract w 0 15.
Proof. reflexivity. Qed.

Lemma arity_cases (command : string) (n : nat) :
  arity command = Some n ->
  (command = "LOAD_CONST"%string /\ n = 2%nat)
  \/ (command = "READ_MEM"%string /\ n = 3%nat)
  \/ (command = "WRITE_MEM"%string /\ n = 2%nat)
  \/ (command = "ABS"%string /\ n = 2%nat).
Proof.
  unfold arity.
  destruct (String.eqb_spec command "LOAD_CONST");
    [ intros [= <-]; auto | ].
  destruct (String.eqb_spec command "READ_MEM");
    [ intros [= <-]; auto | ].
  destruct (String.eqb_spec command "WRITE_MEM");
    [ intros [= <-]; auto | ].
  destruct (String.eqb_spec command "ABS");
    [ intros [= <-]; auto 6 | ].
  discriminate.
Qed.

Lemma length_two {A : Type} (l : list A) :
  length l = 2%nat -> exists x y, l = [x; y].
Proof.
  destruct l as [ | x [ | y [ | z l ] ] ]; try discriminate. eauto.
Qed.

Lemma length_three {A : Type} (l : list A) :
  length l = 3%nat -> exists x y z, l = [x; y; z].
Proof.
  destruct l as [ | x [ | y [ | z [ | t l ] ] ] ]; try discriminate. eauto.
Qed.

Lemma place_mod (v k s : Z) : 0 <= k -> place (v mod 2 ^ k) k s = place v k s.
Proof.
  intros Hk. unfold place. rewrite !Z.land_ones by assumption.
  rewrite Z.mod_mod; [ reflexivity | ].
  apply Z.pow_nonzero; lia.
Qed.

Ltac fields :=
  rewrite ?field_A_extract, ?field_B_extract, ?field_C_extract, ?field_D_extract;
  rewrite ?extract_lor.

Ltac tidy := rewrite ?Z.lor_0_r, ?Z.lor_0_l; reflexivity.

(** What the decoder reads from a LOAD_CONST word. *)
Lemma decode_LOAD_CONST (B C w : Z) :
  encode "LOAD_CONST" [B; C] = Ret w ->
  field_A w = 5
  /\ field_B w = Z.lor (Z.land B (Z.ones 20)) (extract C 41 2)
  /\ field_C w = extract C 21 20.
Proof.
  rewrite encode_LOAD_CONST. intros [= <-]. fields. repeat split.
  - rewrite extract_place_same by lia.
    rewrite !extract_place_apart by lia. tidy.
  - rewrite extract_place_same by lia.
    rewrite extract_place_apart by lia.
    rewrite (extract_place_top C 43 41 20) by lia.
    tidy.
  - rewrite !(extract_place_apart _ _ _ 21 20) by lia.
    rewrite extract_place_low by lia. tidy.
Qed.

(** What the decoder reads from a READ_MEM word. *)
Lemma decode_READ_MEM (B C D w : Z) :
  encode "READ_MEM" [B; C; D] = Ret w ->
  field_A w = 6
  /\ field_B w = Z.land B (Z.ones 20)
  /\ field_C w = Z.land C (Z.ones 20)
  /\ field_D w = Z.land D (Z.ones 15).
Proof.
  rewrite encode_READ_MEM. intros [= <-]. fields. repeat split.
  - rewrite extract_place_same by lia.
    rewrite !extract_place_apart by lia. tidy.
  - rewrite extract_place_same by lia.
    rewrite !extract_place_apart by lia. tidy.
  - rewrite extract_place_same by lia.
    rewrite !extract_place_apart by lia. tidy.
  - rewrite extract_place_same by lia.
    rewrite !extract_place_apart by lia. tidy.
Qed.

(** What the decoder reads from a WRITE_MEM or ABS word. *)
Lemma decode_two_address (a B C : Z) :
  let w := Z.lor (Z.lor (place a 3 61) (place B 20 41)) (place C 20 0) in
  field_A w = Z.land a (Z.ones 3)
  /\ field_B w = Z.land B (Z.ones 20)
  /\ field_C w = 0.
Proof.
  intros w. subst w. fields. repeat split.
  - rewrite extract_place_same by lia.
    rewrite !extract_place_apart by lia. tidy.
  - rewrite extract_place_same by lia.
    rewrite !extract_place_apart by lia. tidy.
  - rewrite !extract_place_apart by lia. tidy.
Qed.

End Encoding.

(** ** Claims about the encoding *)

(** C2: for every WRITE_MEM or ABS instruction the assembler encodes, with
    any destination and any source address, the C field the executor
    decodes (bits 40-21) is 0. *)
Theorem C2_two_address_C_is_zero (addr_dst addr_src : Z) :
  (exists w, encode "WRITE_MEM" [addr_dst; addr_src] = Ret w /\ field_C w = 0)
  /\ (exists w, encode "ABS" [addr_dst; addr_src] = Ret w /\ field_C w = 0).
Proof.
  split.
  - rewrite encode_WRITE_MEM. eexists. split; [ reflexivity | ].
    apply (decode_two_address 1 addr_dst addr_src).
  - rewrite encode_ABS. eexists. split; [ reflexivity | ].
    apply (decode_two_address 0 addr_dst addr_src).
Qed.

(** C3: a READ_MEM instruction whose arguments fit their fields is decoded
    back to exactly its arguments: B is addr_dst, C is addr_base and D is
    offset. *)
Theorem C3_read_mem_round_trip (addr_dst addr_base offset : Z) :
  0 <= addr_dst < 2 ^ 20 ->
  0 <= addr_base < 2 ^ 20 ->
  0 <= offset < 2 ^ 15 ->
  exists w,
    encode "READ_MEM" [addr_dst; addr_base; offset] = Ret w
    /\ field_B w = addr_dst /\ field_C w = addr_base /\ field_D w = offset.
Proof.
  intros HB HC HD.
  destruct (encode "READ_MEM" [addr_dst; addr_base; offset]) as [w | e] eqn:Hw;
    [ | rewrite encode_READ_MEM in Hw; discriminate ].
  exists w. split; [ reflexivity | ].
  destruct (decode_READ_MEM _ _ _ _ Hw) as (_ & -> & -> & ->).
  rewrite !Z.land_ones by lia.
  rewrite !Z.mod_small by assumption.
  auto.
Qed.

Lemma C3_read_mem_round_trip_witness :
  exists w,
    encode "READ_MEM" [1023; 512; 7] = Ret w
    /\ field_B w = 1023 /\ field_C w = 512 /\ field_D w = 7.
Proof. apply (C3_read_mem_round_trip 1023 512 7); lia. Defined.

(** The B field decoded from a LOAD_CONST word, for an address that fits
    its field and a constant whose bits 42 and 41 are set. *)
Lemma load_const_decoded_B (B C w : Z) :
  0 <= B < 2 ^ 20 ->
  Z.testbit C 42 = true -> Z.testbit C 41 = true ->
  encode "LOAD_CONST" [B; C] = Ret w ->
  field_B w = Z.lor B 3.
Proof.
  intros HB H42 H41 Hw.
  destruct (decode_LOAD_CONST _ _ _ Hw) as (_ & -> & _).
  rewrite Z.land_ones, Z.mod_small by lia.
  f_equal. apply Z.bits_inj'. intros i Hi.
  rewrite testbit_extract by lia.
  destruct (Z.ltb_spec i 2) as [Hlt | Hge].
  - rewrite andb_true_r.
    assert (i = 0 \/ i = 1) as [-> | ->] by lia; simpl; assumption.
  - rewrite andb_false_r. symmetry.
    change 3 with (Z.ones 2). rewrite Z.testbit_ones_nonneg by lia.
    apply Z.ltb_ge. assumption.
Qed.

Lemma lor_3_fixed (B : Z) :
  Z.lor B 3 = B <-> Z.testbit B 0 = true /\ Z.testbit B 1 = true.
Proof.
  split.
  - intros Heq. split.
    + rewrite <- Heq, Z.lor_spec. apply orb_true_r.
    + rewrite <- Heq, Z.lor_spec. apply orb_true_r.
  - intros [H0 H1]. apply Z.bits_inj'. intros i Hi.
    rewrite Z.lor_spec.
    change 3 with (Z.ones 2). rewrite Z.testbit_ones_nonneg by lia.
    destruct (Z.ltb_spec i 2) as [Hlt | Hge]; [ | apply orb_false_r ].
    assert (i = 0 \/ i = 1) as [-> | ->] by lia.
    + rewrite H0. reflexivity.
    + rewrite H1. reflexivity.
Qed.

(** C4, as stated, fails: with [B = 3] and [C = 3 * 2^41] both low bits of
    B and both high bits of C are set, and the decoded B is 3. *)
Lemma C4_counterexample :
  ~ (forall B C w : Z,
        Z.testbit B 0 = true -> Z.testbit B 1 = true ->
        Z.testbit C 42 = true -> Z.testbit C 41 = true ->
        0 <= C < 2 ^ 43 ->
        encode "LOAD_CONST" [B; C] = Ret w ->
        field_B w <> B).
Proof.
  intros H.
  apply (H 3 (3 * 2 ^ 41) 11529221643138236416); try reflexivity.
  lia.
Qed.

(** C4 (amended): for a LOAD_CONST instruction whose address B fits its
    field and whose constant has bits 42 and 41 set, the decoded B is B
    with its two lowest bits forced to 1.  It differs from B exactly when B
    does not already have both of its two lowest bits set; when B has them
    set the decoded B is B itself. *)
Theorem C4_load_const_overlap (B C : Z) :
  0 <= B < 2 ^ 20 ->
  Z.testbit C 42 = true -> Z.testbit C 41 = true ->
  exists w,
    encode "LOAD_CONST" [B; C] = Ret w
    /\ field_B w = Z.lor B 3
    /\ (field_B w <> B <-> ~ (Z.testbit B 0 = true /\ Z.testbit B 1 = true)).
Proof.
  intros HB H42 H41.
  destruct (encode "LOAD_CONST" [B; C]) as [w | e] eqn:Hw;
    [ | rewrite encode_LOAD_CONST in Hw; discriminate ].
  exists w. split; [ reflexivity | ].
  pose proof (load_const_decoded_B B C w HB H42 H41 Hw) as HfB.
  split; [ assumption | ].
  rewrite HfB. rewrite lor_3_fixed. reflexivity.
Qed.

Lemma C4_load_const_overlap_witness :
  exists w,
    encode "LOAD_CONST" [4; 3 * 2 ^ 41] = Ret w
    /\ field_B w = Z.lor 4 3
    /\ (field_B w <> 4 <-> ~ (Z.testbit 4 0 = true /\ Z.testbit 4 1 = true)).
Proof.
  apply (C4_load_const_overlap 4 (3 * 2 ^ 41)); [ lia | reflexivity | reflexivity ].
Defined.

(** C7: for every mnemonic and every argument list of the right length,
    encoding succeeds whatever the size of the arguments, and the word is
    the one obtained from the arguments reduced modulo their field widths
    (2^20 for B and the 20-bit C, 2^43 for LOAD_CONST's C, 2^15 for D). *)
Theorem C7_overflow_is_truncated (command : string) (args : list Z) (n : nat) :
  arity command = Some n ->
  length args = n ->
  exists w,
    encode command args = Ret w
    /\ encode command (reduce_args command args) = Ret w.
Proof.
  intros Har Hlen.
  destruct (arity_cases command n Har) as [[-> ->] | [[-> ->] | [[-> ->] | [-> ->]]]].
  - destruct (length_two args Hlen) as (B & C & ->).
    eexists. split; [ apply encode_LOAD_CONST | ].
    change (reduce_args "LOAD_CONST" [B; C]) with [B mod 2 ^ 20; C mod 2 ^ 43].
    rewrite encode_LOAD_CONST, !place_mod by lia. reflexivity.
  - destruct (length_three args Hlen) as (B & C & D & ->).
    eexists. split; [ apply encode_READ_MEM | ].
    change (reduce_args "READ_MEM" [B; C; D])
      with [B mod 2 ^ 20; C mod 2 ^ 20; D mod 2 ^ 15].
    rewrite encode_READ_MEM, !place_mod by lia. reflexivity.
  - destruct (length_two args Hlen) as (B & C & ->).
    eexists. split; [ apply encode_WRITE_MEM | ].
    change (reduce_args "WRITE_MEM" [B; C]) with [B mod 2 ^ 20; C mod 2 ^ 20].
    rewrite encode_WRITE_MEM, !place_mod by lia. reflexivity.
  - destruct (length_two args Hlen) as (B & C & ->).
    eexists. split; [ apply encode_ABS | ].
    change (reduce_args "ABS" [B; C]) with [B mod 2 ^ 20; C mod 2 ^ 20].
    rewrite encode_ABS, !place_mod by lia. reflexivity.
Qed.

Lemma C7_overflow_is_truncated_witness :
  exists w,
    encode "READ_MEM" [2 ^ 20 + 5; 2 ^ 21 + 9; 2 ^ 15 + 3] = Ret w
    /\ encode "READ_MEM" (reduce_args "READ_MEM" [2 ^ 20 + 5; 2 ^ 21 + 9; 2 ^ 15 + 3])
       = Ret w.
Proof.
  apply (C7_overflow_is_truncated "READ_MEM" [2 ^ 20 + 5; 2 ^ 21 + 9; 2 ^ 15 + 3] 3);
    reflexivity.
Defined.

(** ** Subscripting the memory list *)

Section Memory.

Implicit Types (memory : list Z) (i v : Z).

Lemma getitem_spec memory i :
  0 <= i ->
  (i < Z.of_nat (length memory)
   /\ exists v, Py.getitem memory i = Ret v /\ memory !! Z.to_nat i = Some v)
  \/ (Z.of_nat (length memory) <= i /\ Py.getitem memory i = Raise IndexError).
Proof.
  intros Hi. unfold Py.getitem.
  destruct (Z.ltb_spec i 0) as [Hneg | _]; [ lia | ].
  destruct (Z.leb_spec 0 i) as [_ | Hneg]; [ | lia ].
  destruct (Z.ltb_spec i (Z.of_nat (length memory))) as [Hlt | Hge]; simpl.
  - left. split; [ assumption | ].
    destruct (memory !! Z.to_nat i) as [v | ] eqn:Hv.
    + exists v. split; reflexivity.
    + apply lookup_ge_None in Hv. lia.
  - right. split; [ assumption | reflexivity ].
Qed.

Lemma setitem_spec memory i v :
  0 <= i ->
  (i < Z.of_nat (length memory)
   /\ Py.setitem memory i v = Ret (<[Z.to_nat i := v]> memory))
  \/ (Z.of_nat (length memory) <= i /\ Py.setitem memory i v = Raise IndexError).
Proof.
  intros Hi. unfold Py.setitem.
  destruct (Z.ltb_spec i 0) as [Hneg | _]; [ lia | ].
  destruct (Z.leb_spec 0 i) as [_ | Hneg]; [ | lia ].
  destruct (Z.ltb_spec i (Z.of_nat (length memory))) as [Hlt | Hge]; simpl.
  - left. split; [ assumption | reflexivity ].
  - right. split; [ assumption | reflexivity ].
Qed.

(** Whatever the subscript, a read returns a cell of the list. *)
Lemma getitem_Ret_lookup memory i v :
  Py.getitem memory i = Ret v -> exists n, memory !! n = Some v.
Proof.
  unfold Py.getitem.
  destruct (_ && _); [ | discriminate ].
  match goal with |- context [memory !! ?n] => destruct (memory !! n) eqn:Hn end;
    [ | discriminate ].
  intros [= <-]. eauto.
Qed.

Lemma getitem_raises memory i e : Py.getitem memory i = Raise e -> e = IndexError.
Proof.
  unfold Py.getitem.
  destruct (_ && _); [ | congruence ].
  match goal with |- context [memory !! ?n] => destruct (memory !! n) end;
    congruence.
Qed.

Lemma setitem_raises memory i v e :
  Py.setitem memory i v = Raise e -> e = IndexError.
Proof. unfold Py.setitem. destruct (_ && _); congruence. Qed.

Lemma getitem_nonneg memory i v :
  Forall (fun x => 0 <= x) memory -> Py.getitem memory i = Ret v -> 0 <= v.
Proof.
  intros Hall Hget. destruct (getitem_Ret_lookup _ _ _ Hget) as [n Hn].
  apply (Forall_lookup_1 _ _ _ _ Hall Hn).
Qed.

Lemma setitem_well_formed memory i v memory' :
  well_formed memory -> 0 <= v ->
  Py.setitem memory i v = Ret memory' -> well_formed memory'.
Proof.
  intros [Hlen Hall] Hv. unfold Py.setitem.
  destruct (_ && _); [ | discriminate ].
  intros [= <-]. split.
  - rewrite length_insert. assumption.
  - apply Forall_insert; assumption.
Qed.

Lemma fresh_memory_well_formed : well_formed fresh_memory.
Proof.
  split.
  - apply length_replicate.
  - apply Forall_replicate. lia.
Qed.

Lemma field_A_range w : 0 <= field_A w < 8.
Proof. rewrite field_A_extract. apply (extract_range w 61 3). lia. Qed.

Lemma field_B_range w : 0 <= field_B w < 2 ^ 20.
Proof. rewrite field_B_extract. apply (extract_range w 41 20). lia. Qed.

Lemma field_C_range w : 0 <= field_C w < 2 ^ 20.
Proof. rewrite field_C_extract. apply (extract_range w 21 20). lia. Qed.

Lemma field_D_range w : 0 <= field_D w < 2 ^ 15.
Proof. rewrite field_D_extract. apply (extract_range w 0 15). lia. Qed.

End Memory.

(** ** Execution *)

Section Execution.

Implicit Types (memory : list Z) (w : Z) (words : list Z).

Lemma execute_LOAD_CONST memory w :
  field_A w = 5 -> execute memory w = Py.setitem memory (field_B w) (field_C w).
Proof. intros HA. unfold execute. rewrite HA. reflexivity. Qed.

Lemma execute_READ_MEM memory w :
  field_A w = 6 ->
  execute memory w
  = (let* base := Py.getitem memory (field_C w) in
     let* v := Py.getitem memory (base + field_D w) in
     Py.setitem memory (field_B w) v).
Proof. intros HA. unfold execute. rewrite HA. reflexivity. Qed.

Lemma execute_WRITE_MEM memory w :
  field_A w = 1 ->
  execute memory w
  = (let* src := Py.getitem memory (field_C w) in
     let* v := Py.getitem memory src in
     let* dst := Py.getitem memory (field_B w) in
     Py.setitem memory dst v).
Proof. intros HA. unfold execute. rewrite HA. reflexivity. Qed.

Lemma execute_ABS memory w :
  field_A w = 0 ->
  execute memory w
  = (let* src := Py.getitem memory (field_C w) in
     let* v := Py.getitem memory src in
     let* dst := Py.getitem memory (field_B w) in
     Py.setitem memory dst (Z.abs v)).
Proof. intros HA. unfold execute. rewrite HA. reflexivity. Qed.

Lemma execute_other memory w :
  field_A w <> 0 -> field_A w <> 1 -> field_A w <> 5 -> field_A w <> 6 ->
  execute memory w = Ret memory.
Proof.
  intros H0 H1 H5 H6. unfold execute.
  destruct (Z.eqb_spec (field_A w) 5); [ contradiction | ].
  destruct (Z.eqb_spec (field_A w) 6); [ contradiction | ].
  destruct (Z.eqb_spec (field_A w) 1); [ contradiction | ].
  destruct (Z.eqb_spec (field_A w) 0); [ contradiction | ].
  reflexivity.
Qed.

Lemma opcode_cases w :
  field_A w = 5 \/ field_A w = 6 \/ field_A w = 1 \/ field_A w = 0
  \/ (field_A w <> 0 /\ field_A w <> 1 /\ field_A w <> 5 /\ field_A w <> 6).
Proof. lia. Qed.

Lemma execute_raises memory w e : execute memory w = Raise e -> e = IndexError.
Proof.
  destruct (opcode_cases w) as [HA | [HA | [HA | [HA | (H0 & H1 & H5 & H6)]]]].
  - rewrite execute_LOAD_CONST by assumption. apply setitem_raises.
  - rewrite execute_READ_MEM by assumption.
    destruct (Py.getitem memory (field_C w)) as [base | e1] eqn:H1; cbn [bind];
      [ | intros [= <-]; eapply getitem_raises; eassumption ].
    destruct (Py.getitem memory (base + field_D w)) as [v | e2] eqn:H2; cbn [bind];
      [ | intros [= <-]; eapply getitem_raises; eassumption ].
    apply setitem_raises.
  - rewrite execute_WRITE_MEM by assumption.
    destruct (Py.getitem memory (field_C w)) as [src | e1] eqn:H1; cbn [bind];
      [ | intros [= <-]; eapply getitem_raises; eassumption ].
    destruct (Py.getitem memory src) as [v | e2] eqn:H2; cbn [bind];
      [ | intros [= <-]; eapply getitem_raises; eassumption ].
    destruct (Py.getitem memory (field_B w)) as [dst | e3] eqn:H3; cbn [bind];
      [ | intros [= <-]; eapply getitem_raises; eassumption ].
    apply setitem_raises.
  - rewrite execute_ABS by assumption.
    destruct (Py.getitem memory (field_C w)) as [src | e1] eqn:H1; cbn [bind];
      [ | intros [= <-]; eapply getitem_raises; eassumption ].
    destruct (Py.getitem memory src) as [v | e2] eqn:H2; cbn [bind];
      [ | intros [= <-]; eapply getitem_raises; eassumption ].
    destruct (Py.getitem memory (field_B w)) as [dst | e3] eqn:H3; cbn [bind];
      [ | intros [= <-]; eapply getitem_raises; eassumption ].
    apply setitem_raises.
  - rewrite execute_other by assumption. discriminate.
Qed.

(** One instruction keeps the memory at 1024 cells, none negative. *)
Lemma execute_well_formed memory w memory' :
  well_formed memory -> execute memory w = Ret memory' -> well_formed memory'.
Proof.
  intros Hwf.
  destruct (opcode_cases w) as [HA | [HA | [HA | [HA | (H0 & H1 & H5 & H6)]]]].
  - rewrite execute_LOAD_CONST by assumption.
    apply setitem_well_formed; [ assumption | apply field_C_range ].
  - rewrite execute_READ_MEM by assumption.
    destruct (Py.getitem memory (field_C w)) as [base | e1]; cbn [bind];
      [ | discriminate ].
    destruct (Py.getitem memory (base + field_D w)) as [v | e2] eqn:H2; cbn [bind];
      [ | discriminate ].
    apply setitem_well_formed; [ assumption | ].
    eapply getitem_nonneg; [ apply Hwf | eassumption ].
  - rewrite execute_WRITE_MEM by assumption.
    destruct (Py.getitem memory (field_C w)) as [src | e1]; cbn [bind];
      [ | discriminate ].
    destruct (Py.getitem memory src) as [v | e2] eqn:H2; cbn [bind];
      [ | discriminate ].
    destruct (Py.getitem memory (field_B w)) as [dst | e3]; cbn [bind];
      [ | discriminate ].
    apply setitem_well_formed; [ assumption | ].
    eapply getitem_nonneg; [ apply Hwf | eassumption ].
  - rewrite execute_ABS by assumption.
    destruct (Py.getitem memory (field_C w)) as [src | e1]; cbn [bind];
      [ | discriminate ].
    destruct (Py.getitem memory src) as [v | e2]; cbn [bind]; [ | discriminate ].
    destruct (Py.getitem memory (field_B w)) as [dst | e3]; cbn [bind];
      [ | discriminate ].
    apply setitem_well_formed; [ assumption | apply Z.abs_nonneg ].
  - rewrite execute_other by assumption. intros [= <-]. assumption.
Qed.

Lemma run_well_formed words : forall memory memory',
  well_formed memory -> run memory words = Ret memory' -> well_formed memory'.
Proof.
  induction words as [ | w words IH]; intros memory memory' Hwf; cbn [bind run].
  - intros [= <-]. assumption.
  - destruct (execute memory w) as [memory1 | e] eqn:Hex; cbn [bind]; [ | discriminate ].
    apply IH. eapply execute_well_formed; eassumption.
Qed.

Lemma run_app words1 words2 : forall memory,
  run memory (words1 ++ words2)
  = (let* memory' := run memory words1 in run memory' words2).
Proof.
  induction words1 as [ | w words1 IH]; intros memory; cbn [bind run app].
  - reflexivity.
  - destruct (execute memory w) as [memory1 | e]; cbn [bind]; [ apply IH | reflexivity ].
Qed.

Lemma reachable_well_formed words memory :
  run fresh_memory words = Ret memory -> well_formed memory.
Proof. apply run_well_formed, fresh_memory_well_formed. Qed.

End Execution.

(** ** Claims about execution *)

(** C5: an instruction word whose opcode A is none of 0, 1, 5, 6 leaves
    every memory cell as it was and raises nothing; execution goes on with
    the next word. *)
Theorem C5_unknown_opcode_is_noop (memory : list Z) (w : Z) (rest : list Z) :
  field_A w <> 0 -> field_A w <> 1 -> field_A w <> 5 -> field_A w <> 6 ->
  execute memory w = Ret memory
  /\ run memory (w :: rest) = run memory rest.
Proof.
  intros H0 H1 H5 H6.
  assert (execute memory w = Ret memory) as Hex by (apply execute_other; assumption).
  split; [ assumption | ].
  cbn [run]. rewrite Hex. reflexivity.
Qed.

Lemma C5_unknown_opcode_is_noop_witness :
  execute [7; 0; 3] (2 * 2 ^ 61) = Ret [7; 0; 3]
  /\ run [7; 0; 3] [2 * 2 ^ 61; 5 * 2 ^ 61 + 9 * 2 ^ 21]
     = run [7; 0; 3] [5 * 2 ^ 61 + 9 * 2 ^ 21].
Proof.
  apply (C5_unknown_opcode_is_noop [7; 0; 3] (2 * 2 ^ 61) [5 * 2 ^ 61 + 9 * 2 ^ 21]);
    vm_compute; lia.
Defined.

Section Reachable.

Implicit Types (memory : list Z) (w i : Z).

Lemma abs_of_read memory i v :
  Forall (fun x => 0 <= x) memory -> Py.getitem memory i = Ret v -> Z.abs v = v.
Proof.
  intros Hall Hget. apply Z.abs_eq. eapply getitem_nonneg; eassumption.
Qed.

(** With no negative cell, ABS and WRITE_MEM words with the same decoded
    operands do the same thing. *)
Lemma abs_is_write memory w0 w1 :
  Forall (fun x => 0 <= x) memory ->
  field_A w0 = 0 -> field_A w1 = 1 ->
  field_B w0 = field_B w1 -> field_C w0 = field_C w1 ->
  execute memory w0 = execute memory w1.
Proof.
  intros Hall HA0 HA1 HB HC.
  rewrite execute_ABS, execute_WRITE_MEM by assumption.
  rewrite HB, HC.
  destruct (Py.getitem memory (field_C w1)) as [src | e1]; cbn [bind];
    [ | reflexivity ].
  destruct (Py.getitem memory src) as [v | e2] eqn:Hv; cbn [bind];
    [ | reflexivity ].
  rewrite (abs_of_read _ _ _ Hall Hv). reflexivity.
Qed.

Lemma subscripts_LOAD_CONST memory w :
  field_A w = 5 -> subscripts memory w = [field_B w].
Proof. intros HA. unfold subscripts. rewrite HA. reflexivity. Qed.

Lemma subscripts_READ_MEM memory w :
  field_A w = 6 ->
  subscripts memory w
  = field_C w :: field_B w
    :: derived memory (field_C w) (fun base => base + field_D w).
Proof. intros HA. unfold subscripts. rewrite HA. reflexivity. Qed.

Lemma subscripts_two_address memory w :
  field_A w = 1 \/ field_A w = 0 ->
  subscripts memory w
  = field_C w :: field_B w
    :: derived memory (field_C w) (fun v => v)
       ++ derived memory (field_B w) (fun v => v).
Proof. intros [HA | HA]; unfold subscripts; rewrite HA; reflexivity. Qed.

Lemma subscripts_other memory w :
  field_A w <> 0 -> field_A w <> 1 -> field_A w <> 5 -> field_A w <> 6 ->
  subscripts memory w = [].
Proof.
  intros H0 H1 H5 H6. unfold subscripts.
  destruct (Z.eqb_spec (field_A w) 5); [ contradiction | ].
  destruct (Z.eqb_spec (field_A w) 6); [ contradiction | ].
  destruct (Z.eqb_spec (field_A w) 1); [ contradiction | ].
  destruct (Z.eqb_spec (field_A w) 0); [ contradiction | ].
  reflexivity.
Qed.

(** The two-address instructions raise as soon as one of their four
    subscripts is out of range. *)
Lemma two_address_fault memory w (f : Z -> Z) i :
  well_formed memory ->
  In i (field_C w :: field_B w
        :: derived memory (field_C w) (fun v => v)
           ++ derived memory (field_B w) (fun v => v)) ->
  ~ 0 <= i < 1024 ->
  (let* src := Py.getitem memory (field_C w) in
   let* v := Py.getitem memory src in
   let* dst := Py.getitem memory (field_B w) in
   Py.setitem memory dst (f v)) = Raise IndexError.
Proof.
  intros [Hlen Hall] Hin Hout.
  pose proof (field_B_range w) as HB. pose proof (field_C_range w) as HC.
  unfold derived in Hin.
  destruct (getitem_spec memory (field_C w)) as [(HCin & src & Hsrc & _) | [_ ->]];
    [ lia | | reflexivity ].
  rewrite Hsrc in Hin |- *. cbn [bind].
  pose proof (getitem_nonneg _ _ _ Hall Hsrc) as Hsrc0.
  destruct (getitem_spec memory src) as [(Hsin & v & Hv & _) | [_ ->]];
    [ lia | | reflexivity ].
  rewrite Hv. cbn [bind].
  destruct (getitem_spec memory (field_B w)) as [(HBin & dst & Hdst & _) | [_ ->]];
    [ lia | | reflexivity ].
  rewrite Hdst in Hin |- *. cbn [bind].
  pose proof (getitem_nonneg _ _ _ Hall Hdst) as Hdst0.
  destruct (setitem_spec memory dst (f v)) as [[Hdin _] | [_ ->]];
    [ lia | | reflexivity ].
  exfalso. cbn [In app] in Hin.
  destruct Hin as [<- | [<- | [<- | [<- | []]]]]; lia.
Qed.

(** On a memory without negative cells, an instruction raises IndexError
    as soon as one of its subscripts is outside [0, 1024). *)
Lemma subscript_fault memory w i :
  well_formed memory ->
  In i (subscripts memory w) -> ~ 0 <= i < 1024 ->
  execute memory w = Raise IndexError.
Proof.
  intros Hwf Hin Hout.
  pose proof Hwf as [Hlen Hall].
  pose proof (field_B_range w) as HB. pose proof (field_C_range w) as HC.
  pose proof (field_D_range w) as HD.
  destruct (opcode_cases w) as [HA | [HA | [HA | [HA | (H0 & H1 & H5 & H6)]]]].
  - rewrite subscripts_LOAD_CONST in Hin by assumption.
    rewrite execute_LOAD_CONST by assumption.
    destruct Hin as [<- | []].
    destruct (setitem_spec memory (field_B w) (field_C w)) as [[HBin _] | [_ ->]];
      [ lia | lia | reflexivity ].
  - rewrite subscripts_READ_MEM in Hin by assumption.
    rewrite execute_READ_MEM by assumption.
    unfold derived in Hin.
    destruct (getitem_spec memory (field_C w)) as [(HCin & base & Hbase & _) | [_ ->]];
      [ lia | | reflexivity ].
    rewrite Hbase in Hin |- *. cbn [bind].
    pose proof (getitem_nonneg _ _ _ Hall Hbase) as Hbase0.
    destruct (getitem_spec memory (base + field_D w))
      as [(Hin2 & v & Hv & _) | [_ ->]]; [ lia | | reflexivity ].
    rewrite Hv. cbn [bind].
    destruct (setitem_spec memory (field_B w) v) as [[HBin _] | [_ ->]];
      [ lia | | reflexivity ].
    exfalso. destruct Hin as [<- | [<- | [<- | []]]]; lia.
  - rewrite subscripts_two_address in Hin by (left; assumption).
    rewrite execute_WRITE_MEM by assumption.
    apply (two_address_fault memory w (fun v => v) i); assumption.
  - rewrite subscripts_two_address in Hin by (right; assumption).
    rewrite execute_ABS by assumption.
    apply (two_address_fault memory w Z.abs i); assumption.
  - rewrite subscripts_other in Hin by assumption. destruct Hin.
Qed.

End Reachable.

(** Conversely a fault always comes from one of the listed subscripts. *)
Lemma fault_has_subscript (memory : list Z) (w : Z) (e : exn) :
  well_formed memory ->
  execute memory w = Raise e ->
  exists i, In i (subscripts memory w) /\ 1024 <= i.
Proof.
  intros [Hlen Hall].
  pose proof (field_B_range w) as HB. pose proof (field_C_range w) as HC.
  pose proof (field_D_range w) as HD.
  assert (forall f : Z -> Z,
    (let* src := Py.getitem memory (field_C w) in
     let* v := Py.getitem memory src in
     let* dst := Py.getitem memory (field_B w) in
     Py.setitem memory dst (f v)) = Raise e ->
    exists i,
      In i (field_C w :: field_B w
            :: derived memory (field_C w) (fun v => v)
               ++ derived memory (field_B w) (fun v => v))
      /\ 1024 <= i) as Htwo.
  { intros f. unfold derived.
    destruct (getitem_spec memory (field_C w)) as [(_ & src & Hsrc & _) | [Hge _]];
      [ lia | | exists (field_C w); split; [ left; reflexivity | lia ] ].
    rewrite Hsrc. cbn [bind].
    pose proof (getitem_nonneg _ _ _ Hall Hsrc) as Hsrc0.
    destruct (getitem_spec memory src) as [(_ & v & Hv & _) | [Hge _]];
      [ lia | | exists src; split; [ right; right; left; reflexivity | lia ] ].
    rewrite Hv. cbn [bind].
    destruct (getitem_spec memory (field_B w)) as [(_ & dst & Hdst & _) | [Hge _]];
      [ lia | | exists (field_B w); split; [ right; left; reflexivity | lia ] ].
    rewrite Hdst. cbn [bind].
    pose proof (getitem_nonneg _ _ _ Hall Hdst) as Hdst0.
    destruct (setitem_spec memory dst (f v)) as [[_ ->] | [Hge _]];
      [ lia | discriminate | ].
    intros _. exists dst. split; [ | lia ].
    right; right; right; left; reflexivity. }
  destruct (opcode_cases w) as [HA | [HA | [HA | [HA | (H0 & H1 & H5 & H6)]]]].
  - rewrite subscripts_LOAD_CONST, execute_LOAD_CONST by assumption.
    destruct (setitem_spec memory (field_B w) (field_C w)) as [[_ ->] | [Hge _]];
      [ lia | discriminate | ].
    intros _. exists (field_B w). split; [ left; reflexivity | lia ].
  - rewrite subscripts_READ_MEM, execute_READ_MEM by assumption.
    unfold derived.
    destruct (getitem_spec memory (field_C w)) as [(_ & base & Hbase & _) | [Hge _]];
      [ lia | | exists (field_C w); split; [ left; reflexivity | lia ] ].
    rewrite Hbase. cbn [bind].
    pose proof (getitem_nonneg _ _ _ Hall Hbase) as Hbase0.
    destruct (getitem_spec memory (base + field_D w)) as [(_ & v & Hv & _) | [Hge _]];
      [ lia | | exists (base + field_D w);
                split; [ right; right; left; reflexivity | lia ] ].
    rewrite Hv. cbn [bind].
    destruct (setitem_spec memory (field_B w) v) as [[_ ->] | [Hge _]];
      [ lia | discriminate | ].
    intros _. exists (field_B w). split; [ right; left; reflexivity | lia ].
  - rewrite subscripts_two_address, execute_WRITE_MEM by auto.
    apply (Htwo (fun v => v)).
  - rewrite subscripts_two_address, execute_ABS by auto.
    apply (Htwo Z.abs).
  - rewrite execute_other by assumption. discriminate.
Qed.

(** Python accepts the subscripts -1024 .. -1; they cannot arise here, as
    they need a negative cell: on such a memory READ_MEM with memory[C] + D
    = -1 reads the last cell instead of raising. *)
Lemma negative_subscript_wraps :
  execute (<[1023%nat := 8]> (<[0%nat := -1]> fresh_memory))
          (6 * 2 ^ 61 + 5 * 2 ^ 41)
  = Ret (<[5%nat := 8]> (<[1023%nat := 8]> (<[0%nat := -1]> fresh_memory))).
Proof. vm_compute. reflexivity. Qed.

(** C6: when an instruction of the stream refers to a memory subscript
    outside [0, 1024) (the decoded B or C, or an index derived from a cell
    such as memory[C] + D or memory[B]), execution raises IndexError at
    that instruction: nothing is read or written out of range, and the
    words after it are not executed, whatever they are. *)
Theorem C6_out_of_range_halts
    (pre : list Z) (w : Z) (rest : list Z) (memory : list Z) (i : Z)
    (memory_range : Z * Z) :
  run fresh_memory pre = Ret memory ->
  In i (subscripts memory w) ->
  ~ 0 <= i < 1024 ->
  execute memory w = Raise IndexError
  /\ run fresh_memory (pre ++ w :: rest) = Raise IndexError
  /\ interpret_words (pre ++ w :: rest) memory_range = Raise IndexError.
Proof.
  intros Hpre Hin Hout.
  assert (execute memory w = Raise IndexError) as Hex.
  { apply (subscript_fault memory w i); [ | assumption | assumption ].
    apply (reachable_well_formed pre). assumption. }
  assert (run fresh_memory (pre ++ w :: rest) = Raise IndexError) as Hrun.
  { rewrite run_app, Hpre. cbn [bind run]. rewrite Hex. reflexivity. }
  split; [ assumption | ].
  split; [ assumption | ].
  unfold interpret_words. rewrite Hrun. reflexivity.
Qed.

Lemma C6_out_of_range_halts_witness :
  execute (<[0%nat := 1000]> fresh_memory) (6 * 2 ^ 61 + 2 * 2 ^ 41 + 100)
  = Raise IndexError
  /\ run fresh_memory
       ([5 * 2 ^ 61 + 1000 * 2 ^ 21]
        ++ (6 * 2 ^ 61 + 2 * 2 ^ 41 + 100) :: [5 * 2 ^ 61 + 7 * 2 ^ 21])
     = Raise IndexError
  /\ interpret_words
       ([5 * 2 ^ 61 + 1000 * 2 ^ 21]
        ++ (6 * 2 ^ 61 + 2 * 2 ^ 41 + 100) :: [5 * 2 ^ 61 + 7 * 2 ^ 21])
       (0, 4)
     = Raise IndexError.
Proof.
  apply (C6_out_of_range_halts
           [5 * 2 ^ 61 + 1000 * 2 ^ 21] (6 * 2 ^ 61 + 2 * 2 ^ 41 + 100)
           [5 * 2 ^ 61 + 7 * 2 ^ 21] (<[0%nat := 1000]> fresh_memory) 1100 (0, 4)).
  - vm_compute. reflexivity.
  - vm_compute. right. right. left. reflexivity.
  - lia.
Defined.

(** C10: from the all-zero memory, after any stream prefix that runs
    without a fault every cell is >= 0; so abs is the identity on every
    value the interpreter can read, and an ABS word does exactly what a
    WRITE_MEM word with the same operands does. *)
Theorem C10_memory_never_negative (words : list Z) (memory : list Z) :
  run fresh_memory words = Ret memory ->
  Forall (fun v => 0 <= v) memory
  /\ (forall i v, Py.getitem memory i = Ret v -> Z.abs v = v)
  /\ (forall w0 w1,
        field_A w0 = 0 -> field_A w1 = 1 ->
        field_B w0 = field_B w1 -> field_C w0 = field_C w1 ->
        execute memory w0 = execute memory w1)
  /\ (forall addr_dst addr_src w0 w1,
        encode "ABS" [addr_dst; addr_src] = Ret w0 ->
        encode "WRITE_MEM" [addr_dst; addr_src] = Ret w1 ->
        execute memory w0 = execute memory w1).
Proof.
  intros Hrun.
  destruct (reachable_well_formed words memory Hrun) as [Hlen Hall].
  split; [ assumption | ].
  split; [ intros i v; apply abs_of_read; assumption | ].
  split; [ intros w0 w1; apply abs_is_write; assumption | ].
  intros addr_dst addr_src w0 w1.
  rewrite encode_ABS, encode_WRITE_MEM. intros [= <-] [= <-].
  destruct (decode_two_address 0 addr_dst addr_src) as (HA0 & HB0 & HC0).
  destruct (decode_two_address 1 addr_dst addr_src) as (HA1 & HB1 & HC1).
  apply abs_is_write; [ assumption | exact HA0 | exact HA1 | | ].
  - rewrite HB0, HB1. reflexivity.
  - rewrite HC0, HC1. reflexivity.
Qed.

Lemma C10_memory_never_negative_witness :
  Forall (fun v => 0 <= v) (<[3%nat := 9]> fresh_memory)
  /\ (forall i v, Py.getitem (<[3%nat := 9]> fresh_memory) i = Ret v -> Z.abs v = v)
  /\ (forall w0 w1,
        field_A w0 = 0 -> field_A w1 = 1 ->
        field_B w0 = field_B w1 -> field_C w0 = field_C w1 ->
        execute (<[3%nat := 9]> fresh_memory) w0
        = execute (<[3%nat := 9]> fresh_memory) w1)
  /\ (forall addr_dst addr_src w0 w1,
        encode "ABS" [addr_dst; addr_src] = Ret w0 ->
        encode "WRITE_MEM" [addr_dst; addr_src] = Ret w1 ->
        execute (<[3%nat := 9]> fresh_memory) w0
        = execute (<[3%nat := 9]> fresh_memory) w1).
Proof.
  apply (C10_memory_never_negative [5 * 2 ^ 61 + 3 * 2 ^ 41 + 9 * 2 ^ 21]).
  vm_compute. reflexivity.
Defined.

(** ** LOAD_CONST as executed *)

Section LoadConst.

(** The constant the executor stores is bits 40-21 of the argument. *)
Lemma load_const_stored (B const : Z) :
  exists w,
    encode "LOAD_CONST" [B; const] = Ret w
    /\ field_C w = (const / 2 ^ 21) mod 2 ^ 20
    /\ forall memory,
         execute memory w
         = Py.setitem memory (field_B w) ((const / 2 ^ 21) mod 2 ^ 20).
Proof.
  destruct (encode "LOAD_CONST" [B; const]) as [w | e] eqn:Hw;
    [ | rewrite encode_LOAD_CONST in Hw; discriminate ].
  exists w. split; [ reflexivity | ].
  destruct (decode_LOAD_CONST _ _ _ Hw) as (HA & _ & HC).
  assert (field_C w = (const / 2 ^ 21) mod 2 ^ 20) as HC'.
  { rewrite HC. apply extract_div_mod; lia. }
  split; [ assumption | ].
  intros memory. rewrite execute_LOAD_CONST by assumption.
  rewrite HC'. reflexivity.
Qed.

Lemma load_const_small_fields (B const w : Z) :
  0 <= B < 1024 -> 0 <= const < 2 ^ 21 ->
  encode "LOAD_CONST" [B; const] = Ret w ->
  field_B w = B /\ field_C w = 0.
Proof.
  intros HB Hc Hw.
  destruct (decode_LOAD_CONST _ _ _ Hw) as (_ & -> & ->).
  rewrite !extract_div_mod by lia.
  rewrite Z.land_ones, (Z.mod_small B) by lia.
  rewrite !(Z.div_small const) by lia.
  split; [ apply Z.lor_0_r | reflexivity ].
Qed.

End LoadConst.

(** C9, as stated, fails at the constant 0: the value stored is 0, which is
    the constant itself. *)
Lemma C9_counterexample :
  ~ (forall B const w memory',
        0 <= B < 1024 -> 0 <= const < 2 ^ 21 ->
        encode "LOAD_CONST" [B; const] = Ret w ->
        execute fresh_memory w = Ret memory' ->
        Py.getitem memory' B = Ret 0 /\ Py.getitem memory' B <> Ret const).
Proof.
  intros H.
  destruct (H 0 0 (5 * 2 ^ 61) fresh_memory) as [_ Hne];
    [ lia | lia | reflexivity | vm_compute; reflexivity | ].
  apply Hne. vm_compute. reflexivity.
Qed.

(** C9 (amended): executing the encoded word of a LOAD_CONST instruction
    with destination 0 <= B < 1024 and constant 0 <= const < 2^21 stores 0
    into cell B and changes no other cell; the stored value differs from
    the constant whenever the constant is not 0.  For any arguments the
    value the executor stores is floor(const / 2^21) mod 2^20. *)
Theorem C9_load_const_small_stores_zero (B const : Z) (memory : list Z) :
  0 <= B < 1024 -> 0 <= const < 2 ^ 21 ->
  length memory = 1024%nat ->
  exists w,
    encode "LOAD_CONST" [B; const] = Ret w
    /\ execute memory w = Ret (<[Z.to_nat B := 0]> memory)
    /\ Py.getitem (<[Z.to_nat B := 0]> memory) B = Ret 0
    /\ (const <> 0 -> Py.getitem (<[Z.to_nat B := 0]> memory) B <> Ret const)
    /\ (forall B' const', exists w',
          encode "LOAD_CONST" [B'; const'] = Ret w'
          /\ field_C w' = (const' / 2 ^ 21) mod 2 ^ 20
          /\ forall memory0,
               execute memory0 w'
               = Py.setitem memory0 (field_B w') ((const' / 2 ^ 21) mod 2 ^ 20)).
Proof.
  intros HB Hc Hlen.
  destruct (load_const_stored B const) as (w & Hw & HC & Hex).
  exists w. split; [ assumption | ].
  destruct (load_const_small_fields B const w HB Hc Hw) as [HfB HfC].
  assert (Py.getitem (<[Z.to_nat B := 0]> memory) B = Ret 0) as Hget.
  { destruct (getitem_spec (<[Z.to_nat B := 0]> memory) B)
      as [(_ & v & -> & Hv) | [Hge _]]; [ lia | | rewrite length_insert in Hge; lia ].
    rewrite list_lookup_insert_eq in Hv by lia. congruence. }
  split.
  - rewrite Hex, HfB, <- HC, HfC.
    destruct (setitem_spec memory B 0) as [[_ ->] | [Hge _]]; [ lia | reflexivity | lia ].
  - split; [ assumption | ].
    split; [ rewrite Hget; congruence | ].
    intros B' const'. apply load_const_stored.
Qed.

Lemma C9_load_const_small_stores_zero_witness :
  exists w,
    encode "LOAD_CONST" [0; 42] = Ret w
    /\ execute fresh_memory w = Ret (<[Z.to_nat 0 := 0]> fresh_memory)
    /\ Py.getitem (<[Z.to_nat 0 := 0]> fresh_memory) 0 = Ret 0
    /\ (42 <> 0 -> Py.getitem (<[Z.to_nat 0 := 0]> fresh_memory) 0 <> Ret 42)
    /\ (forall B' const', exists w',
          encode "LOAD_CONST" [B'; const'] = Ret w'
          /\ field_C w' = (const' / 2 ^ 21) mod 2 ^ 20
          /\ forall memory0,
               execute memory0 w'
               = Py.setitem memory0 (field_B w') ((const' / 2 ^ 21) mod 2 ^ 20)).
Proof.
  apply (C9_load_const_small_stores_zero 0 42 fresh_memory);
    [ lia | lia | reflexivity ].
Defined.

(** ** The end-to-end scenario *)

(** Even on a memory where cell 0 holds 42 and cell 1 holds the pointer 0,
    the WRITE_MEM word of the scenario writes memory[memory[0]], that is
    memory[42] = 0, into cell 0. *)
Lemma scenario_write_mem_reads_indirectly :
  encode "WRITE_MEM" [1; 0] = Ret 0x2000020000000000
  /\ execute (<[0%nat := 42]> fresh_memory) 0x2000020000000000 = Ret fresh_memory.
Proof. split; vm_compute; reflexivity. Qed.

(** C1, as stated, fails: the dump of the scenario does not report value 42
    at address 0. *)
Lemma C1_counterexample :
  ~ (exists ws log bs rows,
        assemble_lines (Py.readlines scenario) = Ret (ws, log)
        /\ write_words ws [] = (bs, Ret tt)
        /\ interpret_words (words_of bs) (0, 2) = Ret rows
        /\ In (0, 42) rows).
Proof.
  intros (ws & log & bs & rows & Hasm & Hbin & Hrun & Hin).
  vm_compute in Hasm. injection Hasm as <- _.
  vm_compute in Hbin. injection Hbin as <-.
  vm_compute in Hrun. injection Hrun as <-.
  destruct Hin as [Heq | [Heq | []]]; discriminate.
Qed.

(** C1 (amended): assembling the three-line program, executing the words
    read back from its binary image on a fresh memory and dumping [0, 2)
    reports address 0 with value 0 and address 1 with value 0. *)
Theorem C1_scenario_dump :
  exists ws log bs,
    assemble_lines (Py.readlines scenario) = Ret (ws, log)
    /\ ws = [0xA00000000000002A; 0xA000020000000000; 0x2000020000000000]
    /\ write_words ws [] = (bs, Ret tt)
    /\ words_of bs = ws
    /\ interpret_words (words_of bs) (0, 2) = Ret [(0, 0); (1, 0)].
Proof.
  do 3 eexists.
  split; [ vm_compute; reflexivity | ].
  split; [ reflexivity | ].
  split; [ vm_compute; reflexivity | ].
  split; vm_compute; reflexivity.
Qed.

(** ** Malformed source lines *)

Section Malformed.

Lemma encode_unknown (cmd : string) (args : list Z) :
  arity cmd = None -> encode cmd args = Raise ValueError.
Proof.
  unfold arity, encode.
  destruct (String.eqb cmd "LOAD_CONST"); [ discriminate | ].
  destruct (String.eqb cmd "READ_MEM"); [ discriminate | ].
  destruct (String.eqb cmd "WRITE_MEM"); [ discriminate | ].
  destruct (String.eqb cmd "ABS"); [ discriminate | ].
  reflexivity.
Qed.

Lemma encode_wrong_count (cmd : string) (args : list Z) (n : nat) :
  arity cmd = Some n -> length args <> n -> encode cmd args = Raise ValueError.
Proof.
  intros Har Hlen.
  destruct (arity_cases cmd n Har) as [[-> ->] | [[-> ->] | [[-> ->] | [-> ->]]]];
    destruct args as [ | a [ | b [ | c [ | d l ] ] ] ];
    cbn [length] in Hlen; try congruence; reflexivity.
Qed.

Lemma map_int_length (toks : list string) : forall args,
  Py.map_int toks = Ret args -> length args = length toks.
Proof.
  induction toks as [ | tok toks IH]; intros args; cbn [Py.map_int].
  - intros [= <-]. reflexivity.
  - destruct (Py.int tok) as [z | e]; cbn [bind]; [ | discriminate ].
    destruct (Py.map_int toks) as [zs | e]; cbn [bind]; [ | discriminate ].
    intros [= <-]. cbn [length]. f_equal. apply IH. reflexivity.
Qed.

Lemma map_int_raises (toks : list string) :
  existsb (fun tok => raises (Py.int tok)) toks = true ->
  exists e, Py.map_int toks = Raise e.
Proof.
  induction toks as [ | tok toks IH]; cbn [existsb Py.map_int]; [ discriminate | ].
  destruct (Py.int tok) as [z | e]; cbn [bind raises orb]; [ | eauto ].
  intros Hrest. destruct (IH Hrest) as [e ->]. cbn [bind]. eauto.
Qed.

Lemma getitem_head {A : Type} (x : A) (l : list A) : Py.getitem (x :: l) 0 = Ret x.
Proof.
  unfold Py.getitem. cbn [length].
  destruct (Z.ltb_spec 0 (Z.of_nat (S (length l)))) as [_ | Hge]; [ | lia ].
  reflexivity.
Qed.

(** The body of the loop raises on a malformed line. *)
Lemma malformed_line_raises (line : string) (lines : list string)
    (binary_instructions : list Z) (log_data : list log_row) :
  malformed line = true ->
  exists e, assemble_loop (line :: lines) binary_instructions log_data = Raise e.
Proof.
  unfold malformed. cbn [assemble_loop].
  destruct (Py.split line) as [ | cmd toks]; [ discriminate | ].
  rewrite getitem_head. cbn [bind tail].
  destruct (Py.map_int toks) as [args | e] eqn:Hargs; cbn [bind]; [ | eauto ].
  destruct (arity cmd) as [n | ] eqn:Har.
  - intros Hbad. apply orb_true_iff in Hbad as [Hcount | Hint].
    + rewrite (encode_wrong_count cmd args n Har); [ cbn [bind]; eauto | ].
      rewrite (map_int_length _ _ Hargs).
      apply negb_true_iff, Nat.eqb_neq in Hcount. assumption.
    + destruct (map_int_raises toks Hint) as [e He]. congruence.
  - intros _. rewrite (encode_unknown cmd args Har). cbn [bind]. eauto.
Qed.

(** The loop raises as soon as one of its lines is malformed. *)
Lemma malformed_source_raises (lines : list string) (line : string) :
  In line lines -> malformed line = true ->
  forall binary_instructions log_data,
    exists e, assemble_loop lines binary_instructions log_data = Raise e.
Proof.
  intros Hin Hbad.
  induction lines as [ | l lines IH]; [ destruct Hin | ].
  intros binary_instructions log_data.
  destruct Hin as [-> | Hin]; [ apply malformed_line_raises; assumption | ].
  cbn [assemble_loop].
  destruct (Py.getitem (Py.split l) 0) as [cmd | e]; cbn [bind]; [ | eauto ].
  destruct (Py.map_int (tail (Py.split l))) as [args | e]; cbn [bind]; [ | eauto ].
  destruct (encode cmd args) as [w | e]; cbn [bind]; [ | eauto ].
  apply IH. assumption.
Qed.

End Malformed.

(** C8: if some line of the source has a mnemonic outside LOAD_CONST,
    READ_MEM, WRITE_MEM, ABS, a wrong number of arguments for its
    mnemonic, or an argument that is not an integer, [assemble] raises and
    leaves the file system as it was: neither the binary output nor the
    trace output is written. *)
Theorem C8_malformed_source_writes_nothing
    (decode_text : list Byte.byte -> result string)
    (csv_bytes : list (list cell) -> list Byte.byte)
    (fs : gmap string (list Byte.byte))
    (input_path output_path log_path : string)
    (raw : list Byte.byte) (text : string) (line : string) :
  fs !! input_path = Some raw ->
  decode_text raw = Ret text ->
  In line (Py.readlines text) ->
  malformed line = true ->
  exists e,
    assemble decode_text csv_bytes fs input_path output_path log_path
    = (fs, Raise e).
Proof.
  intros Hfile Htext Hin Hbad.
  destruct (malformed_source_raises _ _ Hin Hbad [] []) as [e He].
  exists e. unfold assemble, assemble_lines.
  rewrite Hfile, Htext, He. reflexivity.
Qed.

Lemma C8_malformed_source_writes_nothing_witness :
  exists e,
    assemble (fun bs => Ret (string_of_list_byte bs)) (fun _ => [])
      {[ "prog.asm"%string := list_byte_of_string "LOAD_CONST 0 42 7" ]}
      "prog.asm" "prog.bin" "prog.csv"
    = ({[ "prog.asm"%string := list_byte_of_string "LOAD_CONST 0 42 7" ]}, Raise e).
Proof.
  apply (C8_malformed_source_writes_nothing
           (fun bs => Ret (string_of_list_byte bs)) (fun _ => [])
           {[ "prog.asm"%string := list_byte_of_string "LOAD_CONST 0 42 7" ]}
           "prog.asm" "prog.bin" "prog.csv"
           (list_byte_of_string "LOAD_CONST 0 42 7")
           "LOAD_CONST 0 42 7" "LOAD_CONST 0 42 7").
  - apply lookup_singleton_eq.
  - vm_compute. reflexivity.
  - vm_compute. left. reflexivity.
  - vm_compute. reflexivity.
Defined.

(** * Further properties of the assembler and of the interpreter *)

(** ** Encoded words *)

Section Words.

Lemma encode_Ret_arity (cmd : string) (args : list Z) (w : Z) :
  encode cmd args = Ret w ->
  exists n, arity cmd = Some n /\ length args = n.
Proof.
  intros Hw. destruct (arity cmd) as [n | ] eqn:Har.
  - exists n. split; [ reflexivity | ].
    destruct (Nat.eq_dec (length args) n) as [Heq | Hne]; [ assumption | ].
    rewrite (encode_wrong_count cmd args n Har Hne) in Hw. discriminate.
  - rewrite (encode_unknown cmd args Har) in Hw. discriminate.
Qed.

(** A number whose bits from 64 up are all clear is a 64-bit word. *)
Lemma word_of_bits (w : Z) :
  (forall i, 64 <= i -> Z.testbit w i = false) -> 0 <= w < 2 ^ 64.
Proof.
  intros Hhigh.
  assert (w = Z.land w (Z.ones 64)) as ->.
  { apply Z.bits_inj'. intros i Hi.
    rewrite Z.land_spec, Z.testbit_ones_nonneg by lia.
    destruct (Z.ltb_spec i 64) as [Hlt | Hge].
    - rewrite andb_true_r. reflexivity.
    - rewrite andb_false_r. apply Hhigh. assumption. }
  rewrite Z.land_ones by lia. apply Z.mod_pos_bound. lia.
Qed.

Lemma place_high_bits (v k s i : Z) :
  0 <= k -> k + s <= 64 -> 64 <= i -> Z.testbit (place v k s) i = false.
Proof.
  intros Hk Hks Hi. rewrite testbit_place by lia.
  destruct (Z.ltb_spec (i - s) k) as [Hlt | Hge]; [ lia | ].
  apply andb_false_r.
Qed.

Lemma encode_word_range (cmd : string) (args : list Z) (w : Z) :
  encode cmd args = Ret w -> 0 <= w < 2 ^ 64.
Proof.
  intros Hw.
  destruct (encode_Ret_arity _ _ _ Hw) as (n & Har & Hlen).
  apply word_of_bits. intros i Hi.
  destruct (arity_cases cmd n Har) as [[-> ->] | [[-> ->] | [[-> ->] | [-> ->]]]].
  - destruct (length_two args Hlen) as (B & C & ->).
    rewrite encode_LOAD_CONST in Hw. injection Hw as <-.
    rewrite !Z.lor_spec, !place_high_bits by lia. reflexivity.
  - destruct (length_three args Hlen) as (B & C & D & ->).
    rewrite encode_READ_MEM in Hw. injection Hw as <-.
    rewrite !Z.lor_spec, !place_high_bits by lia. reflexivity.
  - destruct (length_two args Hlen) as (B & C & ->).
    rewrite encode_WRITE_MEM in Hw. injection Hw as <-.
    rewrite !Z.lor_spec, !place_high_bits by lia. reflexivity.
  - destruct (length_two args Hlen) as (B & C & ->).
    rewrite encode_ABS in Hw. injection Hw as <-.
    rewrite !Z.lor_spec, !place_high_bits by lia. reflexivity.
Qed.

End Words.

(** X1: whatever the arguments, the opcode decoded from an encoded
    instruction is the one of its mnemonic: 0 for ABS, 1 for WRITE_MEM, 5
    for LOAD_CONST and 6 for READ_MEM. *)
Theorem X1_opcode_round_trip :
  (forall B C, exists w, encode "ABS" [B; C] = Ret w /\ field_A w = 0)
  /\ (forall B C, exists w, encode "WRITE_MEM" [B; C] = Ret w /\ field_A w = 1)
  /\ (forall B C, exists w, encode "LOAD_CONST" [B; C] = Ret w /\ field_A w = 5)
  /\ (forall B C D, exists w, encode "READ_MEM" [B; C; D] = Ret w /\ field_A w = 6).
Proof.
  repeat split.
  - intros B C. eexists. split; [ apply encode_ABS | ].
    apply (decode_two_address 0 B C).
  - intros B C. eexists. split; [ apply encode_WRITE_MEM | ].
    apply (decode_two_address 1 B C).
  - intros B C.
    destruct (encode "LOAD_CONST" [B; C]) as [w | e] eqn:Hw;
      [ | rewrite encode_LOAD_CONST in Hw; discriminate ].
    exists w. split; [ reflexivity | ].
    apply (decode_LOAD_CONST B C w Hw).
  - intros B C D.
    destruct (encode "READ_MEM" [B; C; D]) as [w | e] eqn:Hw;
      [ | rewrite encode_READ_MEM in Hw; discriminate ].
    exists w. split; [ reflexivity | ].
    apply (decode_READ_MEM B C D w Hw).
Qed.

(** X2: every word the encoder returns is an unsigned 64-bit integer, so
    its conversion to 8 bytes cannot overflow. *)
Theorem X2_encoded_word_fits_64_bits (cmd : string) (args : list Z) (w : Z) :
  encode cmd args = Ret w ->
  0 <= w < 2 ^ 64 /\ exists bs, Py.to_bytes8 w = Ret bs /\ length bs = 8%nat.
Proof.
  intros Hw. pose proof (encode_word_range cmd args w Hw) as Hrange.
  split; [ assumption | ].
  unfold Py.to_bytes8.
  destruct (Z.leb_spec 0 w) as [_ | Hneg]; [ | lia ].
  destruct (Z.ltb_spec w (2 ^ 64)) as [_ | Hbig]; [ | lia ].
  eexists. split; reflexivity.
Qed.

Lemma X2_encoded_word_fits_64_bits_witness :
  0 <= 16140898865476796419 < 2 ^ 64
  /\ exists bs, Py.to_bytes8 16140898865476796419 = Ret bs /\ length bs = 8%nat.
Proof.
  apply (X2_encoded_word_fits_64_bits "READ_MEM" [-1; 2; 3]). reflexivity.
Defined.

(** X3: the source address written in a WRITE_MEM or ABS instruction has no
    effect on execution: two such instructions with the same destination
    behave alike on every memory, whatever their source addresses. *)
Theorem X3_source_address_is_ignored (addr_dst src1 src2 : Z) (memory : list Z) :
  (exists w1 w2,
      encode "WRITE_MEM" [addr_dst; src1] = Ret w1
      /\ encode "WRITE_MEM" [addr_dst; src2] = Ret w2
      /\ execute memory w1 = execute memory w2)
  /\ (exists w1 w2,
        encode "ABS" [addr_dst; src1] = Ret w1
        /\ encode "ABS" [addr_dst; src2] = Ret w2
        /\ execute memory w1 = execute memory w2).
Proof.
  split.
  - do 2 eexists.
    split; [ apply encode_WRITE_MEM | ]. split; [ apply encode_WRITE_MEM | ].
    destruct (decode_two_address 1 addr_dst src1) as (HA1 & HB1 & HC1).
    destruct (decode_two_address 1 addr_dst src2) as (HA2 & HB2 & HC2).
    rewrite !execute_WRITE_MEM by assumption.
    rewrite HB1, HB2, HC1, HC2. reflexivity.
  - do 2 eexists.
    split; [ apply encode_ABS | ]. split; [ apply encode_ABS | ].
    destruct (decode_two_address 0 addr_dst src1) as (HA1 & HB1 & HC1).
    destruct (decode_two_address 0 addr_dst src2) as (HA2 & HB2 & HC2).
    rewrite !execute_ABS by assumption.
    rewrite HB1, HB2, HC1, HC2. reflexivity.
Qed.

(** X4: READ_MEM works as written in the source text.  With a destination
    and a base address below 1024 and an offset below 2^15, executing the
    encoded instruction copies cell memory[base] + offset into the
    destination cell and changes nothing else. *)
Theorem X4_read_mem_executes_as_written
    (addr_dst addr_base offset : Z) (memory : list Z) (base v : Z) :
  0 <= addr_dst < 1024 -> 0 <= addr_base < 1024 -> 0 <= offset < 2 ^ 15 ->
  length memory = 1024%nat ->
  memory !! Z.to_nat addr_base = Some base ->
  0 <= base + offset < 1024 ->
  memory !! Z.to_nat (base + offset) = Some v ->
  exists w,
    encode "READ_MEM" [addr_dst; addr_base; offset] = Ret w
    /\ execute memory w = Ret (<[Z.to_nat addr_dst := v]> memory).
Proof.
  intros HB HC HD Hlen Hbase Hidx Hv.
  destruct (encode "READ_MEM" [addr_dst; addr_base; offset]) as [w | e] eqn:Hw;
    [ | rewrite encode_READ_MEM in Hw; discriminate ].
  exists w. split; [ reflexivity | ].
  destruct (decode_READ_MEM _ _ _ _ Hw) as (HfA & HfB & HfC & HfD).
  rewrite Z.land_ones, Z.mod_small in HfB, HfC, HfD by lia.
  rewrite execute_READ_MEM by assumption. rewrite HfB, HfC, HfD.
  destruct (getitem_spec memory addr_base) as [(_ & x & -> & Hx) | [Hge _]];
    [ lia | | lia ].
  assert (x = base) as -> by congruence. cbn [bind].
  destruct (getitem_spec memory (base + offset)) as [(_ & y & -> & Hy) | [Hge _]];
    [ lia | | lia ].
  assert (y = v) as -> by congruence. cbn [bind].
  destruct (setitem_spec memory addr_dst v) as [[_ ->] | [Hge _]];
    [ lia | reflexivity | lia ].
Qed.

Lemma X4_read_mem_executes_as_written_witness :
  exists w,
    encode "READ_MEM" [5; 0; 3] = Ret w
    /\ execute (<[10%nat := 77]> (<[0%nat := 7]> fresh_memory)) w
       = Ret (<[Z.to_nat 5 := 77]> (<[10%nat := 77]> (<[0%nat := 7]> fresh_memory))).
Proof.
  apply (X4_read_mem_executes_as_written
           5 0 3 (<[10%nat := 77]> (<[0%nat := 7]> fresh_memory)) 7 77);
    try lia; reflexivity.
Defined.

(** X5: the executor takes the constant of LOAD_CONST from bits 40-21, so a
    value k below 2^20 is loaded by writing the constant k * 2^21: the
    encoded instruction stores k into cell B and changes nothing else. *)
Theorem X5_load_const_shifted_constant (B k : Z) (memory : list Z) :
  0 <= B < 1024 -> 0 <= k < 2 ^ 20 ->
  length memory = 1024%nat ->
  exists w,
    encode "LOAD_CONST" [B; k * 2 ^ 21] = Ret w
    /\ execute memory w = Ret (<[Z.to_nat B := k]> memory).
Proof.
  intros HB Hk Hlen.
  destruct (load_const_stored B (k * 2 ^ 21)) as (w & Hw & _ & Hex).
  exists w. split; [ assumption | ].
  destruct (decode_LOAD_CONST _ _ _ Hw) as (_ & HfB & _).
  rewrite Hex, HfB.
  rewrite Z.div_mul, (Z.mod_small k) by lia.
  rewrite extract_div_mod by lia.
  rewrite (Z.div_small (k * 2 ^ 21)) by lia.
  rewrite Z.land_ones, (Z.mod_small B) by lia.
  replace (Z.lor B (0 mod 2 ^ 2)) with B by (symmetry; apply Z.lor_0_r).
  destruct (setitem_spec memory B k) as [[_ ->] | [Hge _]];
    [ lia | reflexivity | lia ].
Qed.

Lemma X5_load_const_shifted_constant_witness :
  exists w,
    encode "LOAD_CONST" [0; 42 * 2 ^ 21] = Ret w
    /\ execute fresh_memory w = Ret (<[Z.to_nat 0 := 42]> fresh_memory).
Proof.
  apply (X5_load_const_shifted_constant 0 42 fresh_memory);
    [ lia | lia | reflexivity ].
Defined.

(** ** The binary image *)

Section Bytes.

Lemma Z_of_byte_of_Z (x : Z) : 0 <= x < 256 -> Py.Z_of_byte (Py.byte_of_Z x) = x.
Proof.
  intros Hx. unfold Py.Z_of_byte, Py.byte_of_Z.
  destruct (Byte.of_N (Z.to_N x)) as [b | ] eqn:Hb.
  - apply Byte.to_of_N in Hb. rewrite Hb. lia.
  - apply Byte.of_N_None_iff in Hb. lia.
Qed.

Lemma Z_of_byte_range (b : Byte.byte) : 0 <= Py.Z_of_byte b < 256.
Proof.
  unfold Py.Z_of_byte. pose proof (Byte.to_N_bounded b). lia.
Qed.

Lemma byte_digit (n k : Z) :
  0 <= k ->
  Py.Z_of_byte (Py.byte_of_Z (Z.land (Z.shiftr n k) 0xFF)) = (n / 2 ^ k) mod 256.
Proof.
  intros Hk. change 0xFF with (Z.ones 8).
  rewrite Z.land_ones, Z.shiftr_div_pow2 by lia.
  apply Z_of_byte_of_Z. apply Z.mod_pos_bound. lia.
Qed.

(** Eight bytes, most significant first, and back. *)
Lemma from_bytes_to_bytes8 (n : Z) :
  0 <= n < 2 ^ 64 ->
  exists bs, Py.to_bytes8 n = Ret bs /\ length bs = 8%nat /\ Py.from_bytes bs = n.
Proof.
  intros Hn. unfold Py.to_bytes8.
  destruct (Z.leb_spec 0 n) as [_ | Hneg]; [ | lia ].
  destruct (Z.ltb_spec n (2 ^ 64)) as [_ | Hbig]; [ | lia ].
  eexists. split; [ reflexivity | ]. split; [ reflexivity | ].
  unfold Py.from_bytes. cbn [map fold_left andb].
  change (8 * Z.of_nat 7) with 56. change (8 * Z.of_nat 6) with 48.
  change (8 * Z.of_nat 5) with 40. change (8 * Z.of_nat 4) with 32.
  change (8 * Z.of_nat 3) with 24. change (8 * Z.of_nat 2) with 16.
  change (8 * Z.of_nat 1) with 8. change (8 * Z.of_nat 0) with 0.
  rewrite !byte_digit by lia.
  change (2 ^ 0) with 1. rewrite Z.div_1_r.
  Z.div_mod_to_equations. lia.
Qed.

Lemma from_bytes_snoc (bs : list Byte.byte) : forall acc,
  0 <= acc ->
  0 <= fold_left (fun a b => 256 * a + Py.Z_of_byte b) bs acc
    < (acc + 1) * 256 ^ Z.of_nat (length bs).
Proof.
  induction bs as [ | b bs IH]; intros acc Hacc; cbn [fold_left length].
  - change (256 ^ Z.of_nat 0) with 1. lia.
  - pose proof (Z_of_byte_range b) as Hb.
    specialize (IH (256 * acc + Py.Z_of_byte b) ltac:(lia)).
    rewrite Nat2Z.inj_succ, Z.pow_succ_r by lia.
    assert (0 < 256 ^ Z.of_nat (length bs)) by (apply Z.pow_pos_nonneg; lia).
    nia.
Qed.

Lemma from_bytes_range (bs : list Byte.byte) :
  0 <= Py.from_bytes bs < 256 ^ Z.of_nat (length bs).
Proof.
  pose proof (from_bytes_snoc bs 0 ltac:(lia)) as H.
  unfold Py.from_bytes. lia.
Qed.

(** The first chunk of eight bytes is the first word. *)
Lemma words_of_chunk (chunk rest : list Byte.byte) :
  length chunk = 8%nat ->
  words_of (chunk ++ rest) = Py.from_bytes chunk :: words_of rest.
Proof.
  intros Hlen. unfold words_of.
  rewrite length_app, Hlen.
  replace ((8 + length rest + 7) / 8)%nat with (S ((length rest + 7) / 8)).
  2:{ replace (8 + length rest + 7)%nat with (1 * 8 + (length rest + 7))%nat by lia.
      rewrite Nat.div_add_l by lia. lia. }
  cbn [seq map]. f_equal.
  - f_equal. change (8 * 0)%nat with 0%nat. cbn [drop].
    apply take_app_length'. symmetry. assumption.
  - rewrite <- seq_shift, map_map. apply map_ext. intros k.
    f_equal. f_equal.
    replace (8 * S k)%nat with (length chunk + 8 * k)%nat by lia.
    rewrite drop_app_add. reflexivity.
Qed.

Lemma write_words_spec (ws : list Z) :
  Forall (fun w => 0 <= w < 2 ^ 64) ws ->
  forall written, exists bs,
    write_words ws written = (written ++ bs, Ret tt)
    /\ length bs = (8 * length ws)%nat
    /\ words_of bs = ws.
Proof.
  induction 1 as [ | w ws Hw Hws IH]; intros written; cbn [write_words].
  - exists []. rewrite app_nil_r. repeat split; reflexivity.
  - destruct (from_bytes_to_bytes8 w Hw) as (chunk & -> & Hlen & Hval).
    destruct (IH (written ++ chunk)) as (bs & -> & Hbs & Hwords).
    exists (chunk ++ bs). rewrite app_assoc. split; [ reflexivity | ].
    split.
    + rewrite length_app, Hlen, Hbs. cbn [length]. lia.
    + rewrite words_of_chunk by assumption. rewrite Hval, Hwords. reflexivity.
Qed.

End Bytes.

(** ** The loop of the assembler *)

Section Loop.

Lemma assemble_loop_acc (lines : list string) :
  forall (binary_instructions : list Z) (log_data : list log_row),
    assemble_loop lines binary_instructions log_data
    = (let* r := assemble_loop lines [] [] in
       Ret (binary_instructions ++ fst r, log_data ++ snd r)).
Proof.
  induction lines as [ | line lines IH]; intros bi ld; cbn [assemble_loop].
  - cbn [bind fst snd]. rewrite !app_nil_r. reflexivity.
  - destruct (Py.getitem (Py.split line) 0) as [cmd | e]; cbn [bind];
      [ | reflexivity ].
    destruct (Py.map_int (tail (Py.split line))) as [args | e]; cbn [bind];
      [ | reflexivity ].
    destruct (encode cmd args) as [w | e]; cbn [bind]; [ | reflexivity ].
    rewrite (IH (bi ++ [w])), (IH ([] ++ [w])).
    destruct (assemble_loop lines [] []) as [[ws log] | e]; cbn [bind fst snd];
      [ | reflexivity ].
    cbn [app]. rewrite <- !app_assoc. reflexivity.
Qed.

Lemma assemble_loop_app (lines1 lines2 : list string) :
  forall (binary_instructions : list Z) (log_data : list log_row),
    assemble_loop (lines1 ++ lines2) binary_instructions log_data
    = (let* r := assemble_loop lines1 binary_instructions log_data in
       assemble_loop lines2 (fst r) (snd r)).
Proof.
  induction lines1 as [ | line lines1 IH]; intros bi ld; cbn [assemble_loop app].
  - reflexivity.
  - destruct (Py.getitem (Py.split line) 0) as [cmd | e]; cbn [bind];
      [ | reflexivity ].
    destruct (Py.map_int (tail (Py.split line))) as [args | e]; cbn [bind];
      [ | reflexivity ].
    destruct (encode cmd args) as [w | e]; cbn [bind]; [ | reflexivity ].
    apply IH.
Qed.

Lemma assemble_lines_app (lines1 lines2 : list string) :
  assemble_lines (lines1 ++ lines2)
  = (let* r1 := assemble_lines lines1 in
     let* r2 := assemble_lines lines2 in
     Ret (fst r1 ++ fst r2, snd r1 ++ snd r2)).
Proof.
  unfold assemble_lines. rewrite assemble_loop_app.
  destruct (assemble_loop lines1 [] []) as [[ws1 log1] | e]; cbn [bind fst snd];
    [ | reflexivity ].
  apply assemble_loop_acc.
Qed.

(** What one source line contributes. *)
Lemma assemble_line_inv (line : string) (ws : list Z) (log : list log_row) :
  assemble_lines [line] = Ret (ws, log) ->
  exists cmd toks args w,
    Py.split line = cmd :: toks
    /\ Py.map_int toks = Ret args
    /\ encode cmd args = Ret w
    /\ ws = [w]
    /\ log = [LogRow cmd args (Py.hex16 w)].
Proof.
  unfold assemble_lines. cbn [assemble_loop].
  destruct (Py.split line) as [ | cmd toks]; [ discriminate | ].
  rewrite getitem_head. cbn [bind tail].
  destruct (Py.map_int toks) as [args | e] eqn:Hargs; cbn [bind];
    [ | discriminate ].
  destruct (encode cmd args) as [w | e] eqn:Henc; cbn [bind]; [ | discriminate ].
  intros [= <- <-]. exists cmd, toks, args, w.
  repeat split; assumption || reflexivity.
Qed.

Lemma assemble_lines_cons (line : string) (lines : list string)
    (ws : list Z) (log : list log_row) :
  assemble_lines (line :: lines) = Ret (ws, log) ->
  exists w row ws' log',
    assemble_lines [line] = Ret ([w], [row])
    /\ assemble_lines lines = Ret (ws', log')
    /\ ws = w :: ws' /\ log = row :: log'.
Proof.
  change (line :: lines) with ([line] ++ lines). rewrite assemble_lines_app.
  destruct (assemble_lines [line]) as [[ws1 log1] | e] eqn:H1; cbn [bind];
    [ | discriminate ].
  destruct (assemble_lines lines) as [[ws2 log2] | e]; cbn [bind fst snd];
    [ | discriminate ].
  destruct (assemble_line_inv _ _ _ H1) as (cmd & toks & args & w & _ & _ & _ & -> & ->).
  intros [= <- <-]. eauto 10.
Qed.

Lemma assemble_lines_in_range (lines : list string) :
  forall ws log,
    assemble_lines lines = Ret (ws, log) ->
    length ws = length lines /\ Forall (fun w => 0 <= w < 2 ^ 64) ws.
Proof.
  induction lines as [ | line lines IH]; intros ws log Hasm.
  - injection Hasm as <- <-. split; [ reflexivity | constructor ].
  - destruct (assemble_lines_cons _ _ _ _ Hasm)
      as (w & row & ws' & log' & H1 & H2 & -> & ->).
    destruct (IH _ _ H2) as [Hlen Hall].
    destruct (assemble_line_inv _ _ _ H1)
      as (cmd & toks & args & w0 & _ & _ & Henc & [= ->] & _).
    split; [ cbn [length]; congruence | ].
    constructor; [ | assumption ].
    apply (encode_word_range cmd args w0 Henc).
Qed.

End Loop.

(** X6: the interpreter reads back exactly the words the assembler
    produced.  When the loop of the assembler succeeds, writing its words
    never overflows, the binary image has 8 bytes per source line, and
    cutting the image into 8-byte big-endian chunks gives the same words. *)
Theorem X6_binary_image_round_trip
    (lines : list string) (ws : list Z) (log : list log_row) :
  assemble_lines lines = Ret (ws, log) ->
  exists bs,
    write_words ws [] = (bs, Ret tt)
    /\ length bs = (8 * length lines)%nat
    /\ words_of bs = ws.
Proof.
  intros Hasm.
  destruct (assemble_lines_in_range lines ws log Hasm) as [Hlen Hall].
  destruct (write_words_spec ws Hall []) as (bs & Hbs & Hsize & Hwords).
  exists bs. split; [ exact Hbs | ].
  split; [ rewrite Hsize, Hlen; reflexivity | assumption ].
Qed.

Lemma X6_binary_image_round_trip_witness :
  exists bs,
    write_words [0xC0000A0000000003; 0x2000020000000009] [] = (bs, Ret tt)
    /\ length bs = (8 * length ["READ_MEM 5 0 3"; "WRITE_MEM 1 9"]%string)%nat
    /\ words_of bs = [0xC0000A0000000003; 0x2000020000000009].
Proof.
  apply (X6_binary_image_round_trip
           ["READ_MEM 5 0 3"; "WRITE_MEM 1 9"]%string
           [0xC0000A0000000003; 0x2000020000000009]
           [LogRow "READ_MEM" [5; 0; 3] "C0000A0000000003";
            LogRow "WRITE_MEM" [1; 9] "2000020000000009"]).
  vm_compute. reflexivity.
Defined.

(** X7: lines are assembled independently and in order: assembling two
    pieces of source one after the other gives the words and the trace
    rows of the first followed by those of the second, and the first
    error met is the one raised. *)
Theorem X7_assembly_is_line_by_line (lines1 lines2 : list string) :
  assemble_lines (lines1 ++ lines2)
  = (let* r1 := assemble_lines lines1 in
     let* r2 := assemble_lines lines2 in
     Ret (fst r1 ++ fst r2, snd r1 ++ snd r2)).
Proof.
  unfold assemble_lines. rewrite assemble_loop_app.
  destruct (assemble_loop lines1 [] []) as [[ws1 log1] | e]; cbn [bind fst snd].
  - rewrite assemble_loop_acc. reflexivity.
  - reflexivity.
Qed.

(** X8: when assembly succeeds there is one word and one trace row per
    source line, in source order: the row holds the command token and the
    integer arguments of its line and the 16 hexadecimal digits of the
    word, which is the encoding of that command with those arguments. *)
Theorem X8_one_word_and_row_per_line
    (lines : list string) (ws : list Z) (log : list log_row) :
  assemble_lines lines = Ret (ws, log) ->
  length ws = length lines
  /\ length log = length lines
  /\ forall (k : nat) (line : string),
       lines !! k = Some line ->
       exists cmd toks args w,
         Py.split line = cmd :: toks
         /\ Py.map_int toks = Ret args
         /\ encode cmd args = Ret w
         /\ ws !! k = Some w
         /\ log !! k = Some (LogRow cmd args (Py.hex16 w)).
Proof.
  revert ws log.
  induction lines as [ | line lines IH]; intros ws log Hasm.
  - injection Hasm as <- <-.
    split; [ reflexivity | ]. split; [ reflexivity | ].
    intros k l Hk. discriminate.
  - destruct (assemble_lines_cons _ _ _ _ Hasm)
      as (w & row & ws' & log' & H1 & H2 & -> & ->).
    destruct (IH _ _ H2) as (Hlen1 & Hlen2 & Hrows).
    split; [ cbn [length]; congruence | ].
    split; [ cbn [length]; congruence | ].
    intros [ | k] l Hk.
    + injection Hk as <-.
      destruct (assemble_line_inv _ _ _ H1)
        as (cmd & toks & args & w0 & Hsplit & Hargs & Henc & [= ->] & [= ->]).
      exists cmd, toks, args, w0. repeat split; assumption || reflexivity.
    + apply (Hrows k l Hk).
Qed.

Lemma X8_one_word_and_row_per_line_witness :
  length [0xC0000A0000000003; 0x2000020000000009]
  = length ["READ_MEM 5 0 3"; "WRITE_MEM 1 9"]%string
  /\ length [LogRow "READ_MEM" [5; 0; 3] "C0000A0000000003";
             LogRow "WRITE_MEM" [1; 9] "2000020000000009"]
     = length ["READ_MEM 5 0 3"; "WRITE_MEM 1 9"]%string
  /\ forall (k : nat) (line : string),
       ["READ_MEM 5 0 3"; "WRITE_MEM 1 9"]%string !! k = Some line ->
       exists cmd toks args w,
         Py.split line = cmd :: toks
         /\ Py.map_int toks = Ret args
         /\ encode cmd args = Ret w
         /\ [0xC0000A0000000003; 0x2000020000000009] !! k = Some w
         /\ [LogRow "READ_MEM" [5; 0; 3] "C0000A0000000003";
             LogRow "WRITE_MEM" [1; 9] "2000020000000009"] !! k
            = Some (LogRow cmd args (Py.hex16 w)).
Proof.
  apply (X8_one_word_and_row_per_line ["READ_MEM 5 0 3"; "WRITE_MEM 1 9"]%string).
  vm_compute. reflexivity.
Defined.


(** X10: a line without any token (empty or blank) stops the assembler
    with IndexError, whatever follows it, once the lines before it have
    been assembled. *)
Theorem X10_blank_line_raises_index_error
    (before : list string) (line : string) (after : list string)
    (ws : list Z) (log : list log_row) :
  assemble_lines before = Ret (ws, log) ->
  Py.split line = [] ->
  assemble_lines (before ++ line :: after) = Raise IndexError.
Proof.
  intros Hbefore Hblank.
  change (line :: after) with ([line] ++ after).
  rewrite !assemble_lines_app, Hbefore. cbn [bind].
  unfold assemble_lines at 1. cbn [assemble_loop].
  rewrite Hblank. reflexivity.
Qed.

Lemma X10_blank_line_raises_index_error_witness :
  assemble_lines (["ABS 1 2"%string] ++ "  "%string :: ["ABS 3 4"%string])
  = Raise IndexError.
Proof.
  apply (X10_blank_line_raises_index_error
           ["ABS 1 2"%string] "  "%string ["ABS 3 4"%string]
           [0x0000020000000002] [LogRow "ABS" [1; 2] "0000020000000002"]).
  - vm_compute. reflexivity.
  - vm_compute. reflexivity.
Defined.



(** ** Execution on any memory *)

Section Frame.

Implicit Types (memory : list Z) (w : Z).

Lemma setitem_Ret_insert {A : Type} (l : list A) (i : Z) (v : A) (l' : list A) :
  Py.setitem l i v = Ret l' -> exists k : nat, l' = <[k := v]> l.
Proof.
  unfold Py.setitem. destruct (_ && _); [ | discriminate ].
  intros [= <-]. eauto.
Qed.

(** A successful instruction rewrites at most one cell. *)
Lemma execute_one_cell memory w memory' :
  execute memory w = Ret memory' ->
  exists (k : nat) (v : Z), memory' = <[k := v]> memory.
Proof.
  destruct (opcode_cases w) as [HA | [HA | [HA | [HA | (H0 & H1 & H5 & H6)]]]].
  - rewrite execute_LOAD_CONST by assumption. intros Hset.
    destruct (setitem_Ret_insert _ _ _ _ Hset) as [k ->]. eauto.
  - rewrite execute_READ_MEM by assumption.
    destruct (Py.getitem memory (field_C w)) as [base | e]; cbn [bind];
      [ | discriminate ].
    destruct (Py.getitem memory (base + field_D w)) as [v | e]; cbn [bind];
      [ | discriminate ].
    intros Hset. destruct (setitem_Ret_insert _ _ _ _ Hset) as [k ->]. eauto.
  - rewrite execute_WRITE_MEM by assumption.
    destruct (Py.getitem memory (field_C w)) as [src | e]; cbn [bind];
      [ | discriminate ].
    destruct (Py.getitem memory src) as [v | e]; cbn [bind]; [ | discriminate ].
    destruct (Py.getitem memory (field_B w)) as [dst | e]; cbn [bind];
      [ | discriminate ].
    intros Hset. destruct (setitem_Ret_insert _ _ _ _ Hset) as [k ->]. eauto.
  - rewrite execute_ABS by assumption.
    destruct (Py.getitem memory (field_C w)) as [src | e]; cbn [bind];
      [ | discriminate ].
    destruct (Py.getitem memory src) as [v | e]; cbn [bind]; [ | discriminate ].
    destruct (Py.getitem memory (field_B w)) as [dst | e]; cbn [bind];
      [ | discriminate ].
    intros Hset. destruct (setitem_Ret_insert _ _ _ _ Hset) as [k ->]. eauto.
  - rewrite execute_other by assumption. intros [= <-].
    exists (length memory), 0. symmetry. apply list_insert_ge. lia.
Qed.

(** Every value an instruction stores satisfies a property that holds of
    the decoded C fields and of the cells, and that abs keeps. *)
Lemma execute_preserves (P : Z -> Prop) memory w memory' :
  (forall x, P (field_C x)) -> (forall v, P v -> P (Z.abs v)) ->
  Forall P memory -> execute memory w = Ret memory' -> Forall P memory'.
Proof.
  intros HPC HPabs Hall.
  assert (forall i v, Py.getitem memory i = Ret v -> P v) as Hread.
  { intros i v Hget. destruct (getitem_Ret_lookup _ _ _ Hget) as [n Hn].
    apply (Forall_lookup_1 _ _ _ _ Hall Hn). }
  assert (forall i v l, P v -> Py.setitem memory i v = Ret l -> Forall P l) as Hwrite.
  { intros i v l Hv Hset. destruct (setitem_Ret_insert _ _ _ _ Hset) as [k ->].
    apply Forall_insert; assumption. }
  destruct (opcode_cases w) as [HA | [HA | [HA | [HA | (H0 & H1 & H5 & H6)]]]].
  - rewrite execute_LOAD_CONST by assumption. apply Hwrite, HPC.
  - rewrite execute_READ_MEM by assumption.
    destruct (Py.getitem memory (field_C w)) as [base | e]; cbn [bind];
      [ | discriminate ].
    destruct (Py.getitem memory (base + field_D w)) as [v | e] eqn:Hv; cbn [bind];
      [ | discriminate ].
    apply Hwrite. eapply Hread; eassumption.
  - rewrite execute_WRITE_MEM by assumption.
    destruct (Py.getitem memory (field_C w)) as [src | e]; cbn [bind];
      [ | discriminate ].
    destruct (Py.getitem memory src) as [v | e] eqn:Hv; cbn [bind];
      [ | discriminate ].
    destruct (Py.getitem memory (field_B w)) as [dst | e]; cbn [bind];
      [ | discriminate ].
    apply Hwrite. eapply Hread; eassumption.
  - rewrite execute_ABS by assumption.
    destruct (Py.getitem memory (field_C w)) as [src | e]; cbn [bind];
      [ | discriminate ].
    destruct (Py.getitem memory src) as [v | e] eqn:Hv; cbn [bind];
      [ | discriminate ].
    destruct (Py.getitem memory (field_B w)) as [dst | e]; cbn [bind];
      [ | discriminate ].
    apply Hwrite, HPabs. eapply Hread; eassumption.
  - rewrite execute_other by assumption. intros [= <-]. assumption.
Qed.

Lemma run_preserves (P : Z -> Prop) (words : list Z) :
  (forall x, P (field_C x)) -> (forall v, P v -> P (Z.abs v)) ->
  forall memory memory',
    Forall P memory -> run memory words = Ret memory' -> Forall P memory'.
Proof.
  intros HPC HPabs.
  induction words as [ | w words IH]; intros memory memory' Hall; cbn [run].
  - intros [= <-]. assumption.
  - destruct (execute memory w) as [memory1 | e] eqn:Hex; cbn [bind];
      [ | discriminate ].
    apply IH. eapply execute_preserves; eassumption.
Qed.

End Frame.

(** X12: on any memory, an instruction that does not raise rewrites at most
    one cell and never changes the number of cells. *)
Theorem X12_instruction_rewrites_one_cell (memory : list Z) (w : Z) (memory' : list Z) :
  execute memory w = Ret memory' ->
  length memory' = length memory
  /\ exists (k : nat) (v : Z),
       memory' = <[k := v]> memory
       /\ forall j : nat, j <> k -> memory' !! j = memory !! j.
Proof.
  intros Hex. destruct (execute_one_cell memory w memory' Hex) as (k & v & ->).
  split; [ apply length_insert | ].
  exists k, v. split; [ reflexivity | ].
  intros j Hj. apply list_lookup_insert_ne. congruence.
Qed.

Lemma X12_instruction_rewrites_one_cell_witness :
  length [1; 9; 7] = length [1; -9; 7]
  /\ exists (k : nat) (v : Z),
       [1; 9; 7] = <[k := v]> [1; -9; 7]
       /\ forall j : nat, j <> k -> [1; 9; 7] !! j = [1; -9; 7] !! j.
Proof.
  apply (X12_instruction_rewrites_one_cell [1; -9; 7] 0 [1; 9; 7]).
  vm_compute. reflexivity.
Defined.

(** X13: the memory is never resized: a stream that runs to its end leaves
    exactly as many cells as it found. *)
Theorem X13_memory_is_never_resized (words : list Z) (memory memory' : list Z) :
  run memory words = Ret memory' -> length memory' = length memory.
Proof.
  revert memory.
  induction words as [ | w words IH]; intros memory; cbn [run].
  - intros [= <-]. reflexivity.
  - destruct (execute memory w) as [memory1 | e] eqn:Hex; cbn [bind];
      [ | discriminate ].
    intros Hrun. rewrite (IH memory1 Hrun).
    destruct (execute_one_cell memory w memory1 Hex) as (k & v & ->).
    apply length_insert.
Qed.

Lemma X13_memory_is_never_resized_witness :
  length [1; 9; 9] = length [1; -9; 7].
Proof.
  apply (X13_memory_is_never_resized [0; 6 * 2 ^ 61 + 2 * 2 ^ 41] [1; -9; 7] [1; 9; 9]).
  vm_compute. reflexivity.
Defined.

(** X14: every cell of a memory reached from the fresh memory holds a
    20-bit value: the only values that enter the memory are decoded C
    fields. *)
Theorem X14_cells_are_20_bit (words : list Z) (memory : list Z) :
  run fresh_memory words = Ret memory ->
  Forall (fun v => 0 <= v < 2 ^ 20) memory.
Proof.
  apply (run_preserves (fun v => 0 <= v < 2 ^ 20)).
  - intros x. apply field_C_range.
  - intros v Hv. rewrite Z.abs_eq by lia. assumption.
  - apply Forall_replicate. lia.
Qed.

Lemma X14_cells_are_20_bit_witness :
  Forall (fun v => 0 <= v < 2 ^ 20) (<[3%nat := 9]> fresh_memory).
Proof.
  apply (X14_cells_are_20_bit [5 * 2 ^ 61 + 3 * 2 ^ 41 + 9 * 2 ^ 21]).
  vm_compute. reflexivity.
Defined.

(** X15: the interpreter raises nothing but IndexError, and only when one
    of the subscripts of the instruction is 1024 or more: on a memory
    reached from the fresh memory, a failing instruction has such a
    subscript. *)
Theorem X15_faults_come_from_subscripts
    (pre : list Z) (memory : list Z) (w : Z) (e : exn) :
  run fresh_memory pre = Ret memory ->
  execute memory w = Raise e ->
  e = IndexError /\ exists i, In i (subscripts memory w) /\ 1024 <= i.
Proof.
  intros Hpre Hex. split.
  - apply (execute_raises memory w e Hex).
  - apply (fault_has_subscript memory w e); [ | assumption ].
    apply (reachable_well_formed pre). assumption.
Qed.

Lemma X15_faults_come_from_subscripts_witness :
  IndexError = IndexError
  /\ exists i, In i (subscripts fresh_memory (5 * 2 ^ 61 + 2000 * 2 ^ 41)) /\ 1024 <= i.
Proof.
  apply (X15_faults_come_from_subscripts
           [] fresh_memory (5 * 2 ^ 61 + 2000 * 2 ^ 41) IndexError).
  - reflexivity.
  - vm_compute. reflexivity.
Defined.

(** ** The dump *)

Section Dump.

Lemma enumerate_lookup {A : Type} (l : list A) : forall (start : Z) (k : nat),
  Py.enumerate l start !! k = (fun x => (start + Z.of_nat k, x)) <$> l !! k.
Proof.
  induction l as [ | x l IH]; intros start k; cbn [Py.enumerate].
  - reflexivity.
  - destruct k as [ | k]; cbn [lookup list_lookup].
    + cbn. rewrite Z.add_0_r. reflexivity.
    + change ((x :: l) !! S k) with (l !! k).
      change ((((start, x) :: Py.enumerate l (start + 1)) !! S k))
        with (Py.enumerate l (start + 1) !! k).
      rewrite IH. destruct (l !! k); cbn; [ | reflexivity ].
      do 2 f_equal. lia.
Qed.


(** The cells [lo, hi) of a 1024-cell memory, for bounds that are not
    negative. *)
Lemma dump_rows (memory : list Z) (lo hi : Z) :
  length memory = 1024%nat -> 0 <= lo -> 0 <= hi ->
  Py.enumerate (Py.slice memory lo hi) lo
  = map (fun a => (a, default 0 (memory !! Z.to_nat a)))
        (seqZ lo (Z.min hi 1024 - lo)).
Proof.
  intros Hlen Hlo Hhi. apply list_eq. intros k.
  rewrite enumerate_lookup, list_lookup_fmap.
  unfold Py.slice. rewrite Hlen.
  destruct (Z.ltb_spec lo 0) as [Hneg | _]; [ lia | ].
  destruct (Z.ltb_spec hi 0) as [Hneg | _]; [ lia | ].
  change (Z.of_nat 1024) with 1024.
  destruct (Z_lt_le_dec (Z.of_nat k) (Z.min hi 1024 - lo)) as [Hin | Hout].
  - rewrite lookup_seqZ_lt by assumption.
    rewrite lookup_take_lt by lia.
    rewrite lookup_drop.
    replace (Z.to_nat (Z.min lo 1024) + k)%nat with (Z.to_nat (lo + Z.of_nat k)) by lia.
    cbn [fmap option_fmap option_map].
    destruct (memory !! Z.to_nat (lo + Z.of_nat k)) as [v | ] eqn:Hv.
    + reflexivity.
    + apply lookup_ge_None in Hv. lia.
  - rewrite lookup_seqZ_ge by assumption.
    rewrite lookup_take_ge by lia. reflexivity.
Qed.

End Dump.

(** X16: for bounds lo and hi that are not negative, a run that completes
    dumps one row per address from lo up to hi or 1024, whichever is
    smaller, in ascending order, each with the value of its cell; the dump
    is empty when hi <= lo or lo >= 1024. *)
Theorem X16_dump_rows (words : list Z) (memory : list Z) (lo hi : Z) :
  run fresh_memory words = Ret memory ->
  0 <= lo -> 0 <= hi ->
  interpret_words words (lo, hi)
  = Ret (map (fun a => (a, default 0 (memory !! Z.to_nat a)))
             (seqZ lo (Z.min hi 1024 - lo))).
Proof.
  intros Hrun Hlo Hhi. unfold interpret_words. rewrite Hrun. cbn [bind fst snd].
  f_equal. apply dump_rows; [ | assumption | assumption ].
  apply (reachable_well_formed words memory Hrun).
Qed.

Lemma X16_dump_rows_witness :
  interpret_words [5 * 2 ^ 61 + 3 * 2 ^ 41 + 9 * 2 ^ 21] (2, 5)
  = Ret (map (fun a => (a, default 0 ((<[3%nat := 9]> fresh_memory) !! Z.to_nat a)))
             (seqZ 2 (Z.min 5 1024 - 2))).
Proof.
  apply (X16_dump_rows [5 * 2 ^ 61 + 3 * 2 ^ 41 + 9 * 2 ^ 21]
           (<[3%nat := 9]> fresh_memory) 2 5).
  - vm_compute. reflexivity.
  - lia.
  - lia.
Defined.


(** X18: every word cut from the binary image is an unsigned 64-bit
    integer, and a final chunk shorter than 8 bytes is not rejected: it
    decodes to opcode 0 and is executed as an ABS instruction. *)
Theorem X18_short_final_chunk_is_abs
    (instructions : list Byte.byte) (k : nat) (w : Z) :
  words_of instructions !! k = Some w ->
  0 <= w < 2 ^ 64
  /\ ((length instructions < 8 * k + 8)%nat -> field_A w = 0).
Proof.
  unfold words_of. rewrite list_lookup_fmap.
  destruct (seq 0 ((length instructions + 7) / 8) !! k) as [j | ] eqn:Hj;
    [ | discriminate ].
  apply lookup_seq in Hj as [-> _]. cbn [fmap option_fmap option_map].
  intros [= <-].
  set (chunk := take 8 (drop (8 * (0 + k)) instructions)).
  pose proof (from_bytes_range chunk) as Hrange.
  assert (length chunk <= 8)%nat as Hlen8.
  { unfold chunk. rewrite length_take. lia. }
  assert (256 ^ Z.of_nat (length chunk) <= 2 ^ 64) as Hpow.
  { change (2 ^ 64) with (256 ^ 8). apply Z.pow_le_mono_r; lia. }
  split; [ split; [ apply Hrange | eapply Z.lt_le_trans; [ apply Hrange | exact Hpow ] ] | ].
  intros Hshort.
  assert (length chunk <= 7)%nat as Hlen7.
  { unfold chunk. rewrite length_take, length_drop. lia. }
  assert (256 ^ Z.of_nat (length chunk) <= 2 ^ 56) as Hpow7.
  { change (2 ^ 56) with (256 ^ 7). apply Z.pow_le_mono_r; lia. }
  rewrite field_A_extract, extract_div_mod by lia.
  rewrite Z.div_small; [ reflexivity | ].
  split; [ apply Hrange | ].
  eapply Z.lt_le_trans; [ apply Hrange | ].
  eapply Z.le_trans; [ exact Hpow7 | ].
  apply Z.pow_le_mono_r; lia.
Qed.

Lemma X18_short_final_chunk_is_abs_witness :
  0 <= 3 < 2 ^ 64
  /\ ((length (map Py.byte_of_Z [1; 2; 3; 4; 5; 6; 7; 8; 3]%Z) < 8 * 1 + 8)%nat ->
      field_A 3 = 0).
Proof.
  apply (X18_short_final_chunk_is_abs
           (map Py.byte_of_Z [1; 2; 3; 4; 5; 6; 7; 8; 3]) 1 3).
  vm_compute. reflexivity.
Defined.

(** ** Assembling, then interpreting *)


